(** * Meme generator: the orchestration core of [src/index.ts] and [src/app.ts]

    A shallow embedding of the stdio tool server ([index.ts]) and of the REST
    server ([app.ts]).  Both files carry the same private methods
    ([validateEnvVars], [getIndianNewsByTopic], [fetchImgflipTemplates],
    [generateCaption], [parseMemeCaption], [generateMeme]) and differ in
    where the credentials are checked and in the envelope of an answer.

    JavaScript data is modelled as the program has it:
    - a string is a sequence of UTF-16 code units ([list N]);
    - a number is a binary64 value ([spec_float] of the Standard Library);
    - a value of type [any] (a parsed JSON body) is a [value];
    - [throw] / [try ... catch] is an error monad ([completion]);
    - [process.env] is a finite map; [fetch] is an oracle from requests to
      outcomes. *)

From Stdlib Require Import ZArith NArith List Ascii String Bool Lia.
From Stdlib Require Import Floats.SpecFloat.
From stdpp Require Import base option list countable gmap.

Local Open Scope Z_scope.
Local Open Scope list_scope.
Set Warnings "-register-all".

(* ===================================================================== *)
(** * Strings *)
(* ===================================================================== *)

(** A JavaScript string: its UTF-16 code units. *)
Abbreviation jsstring := (list N).

(** A literal of the source, written with Rocq's string syntax. *)
Definition js (s : string) : jsstring :=
  List.map N_of_ascii (list_ascii_of_string s).

(** Code units the source names. *)
Definition c_quote : N := 34.      (* the double quote *)
Definition c_apostrophe : N := 39.
Definition c_backtick : N := 96.

(** A literal in which every apostrophe stands for a double quote, so that
    JSON text can be written inside a Rocq string. *)
Definition jsq (s : string) : jsstring :=
  List.map (fun c => if N.eqb c c_apostrophe then c_quote else c) (js s).

(** [WhiteSpace] and [LineTerminator] of ECMAScript: what [trim] removes and
    what [Number] skips around a numeric string. *)
Definition is_js_space (c : N) : bool :=
  (N.eqb c 9 || N.eqb c 10 || N.eqb c 11 || N.eqb c 12 || N.eqb c 13
   || N.eqb c 32 || N.eqb c 160 || N.eqb c 5760
   || (N.leb 8192 c && N.leb c 8202)
   || N.eqb c 8232 || N.eqb c 8233 || N.eqb c 8239 || N.eqb c 8287
   || N.eqb c 12288 || N.eqb c 65279)%bool.

Fixpoint trimStart (s : jsstring) : jsstring :=
  match s with
  | c :: s' => if is_js_space c then trimStart s' else s
  | [] => []
  end.

Definition trimEnd (s : jsstring) : jsstring := rev (trimStart (rev s)).

(** [String.prototype.trim]. *)
Definition trim (s : jsstring) : jsstring := trimEnd (trimStart s).

Fixpoint starts_with (pat s : jsstring) : bool :=
  match pat, s with
  | [], _ => true
  | p :: pat', c :: s' => N.eqb p c && starts_with pat' s'
  | _ :: _, [] => false
  end.

(** The rest of [s] when [s] begins with the code unit [c]. *)
Definition expect (c : N) (s : jsstring) : option jsstring :=
  match s with
  | d :: rest => if N.eqb d c then Some rest else None
  | [] => None
  end.

(** [s.replace(/pat/g, '')] for a pattern that is a plain, non-empty run of
    characters: the matches are found left to right, each search resuming
    after the previous match, and all are deleted.  [skip] counts the
    characters of the current match still to be dropped. *)
Fixpoint remove_all_from (pat : jsstring) (skip : nat) (s : jsstring) : jsstring :=
  match s with
  | [] => []
  | c :: s' =>
      match skip with
      | S k => remove_all_from pat k s'
      | O =>
          if starts_with pat s
          then remove_all_from pat (Nat.pred (length pat)) s'
          else c :: remove_all_from pat O s'
      end
  end.

Definition remove_all (pat s : jsstring) : jsstring := remove_all_from pat O s.

(** [parts.join(sep)] on strings. *)
Fixpoint join (sep : jsstring) (parts : list jsstring) : jsstring :=
  match parts with
  | [] => []
  | [p] => p
  | p :: rest => p ++ sep ++ join sep rest
  end.

(** [hay] contains [needle] as a run of consecutive code units. *)
Definition contains (hay needle : jsstring) : Prop :=
  exists pre post, hay = pre ++ needle ++ post.

(** Decimal digits of a natural number, most significant first. *)
Fixpoint digits_fuel (fuel : nat) (n : N) (acc : jsstring) : jsstring :=
  match fuel with
  | O => acc
  | S f =>
      let acc' := (48 + n mod 10)%N :: acc in
      if N.ltb n 10 then acc' else digits_fuel f (n / 10)%N acc'
  end.

Definition decimal_of_N (n : N) : jsstring :=
  digits_fuel (S (N.to_nat (N.log2 n))) n [].

(* ===================================================================== *)
(** * Numbers *)
(* ===================================================================== *)

(** A JavaScript Number is an IEEE 754 binary64 value: 53 bits of precision,
    infinities at exponent 1024. *)
Abbreviation number := spec_float.

Definition is_NaN (x : number) : bool :=
  match x with S754_nan => true | _ => false end.

Definition is_zero (x : number) : bool :=
  match x with S754_zero _ => true | _ => false end.

(** The Number nearest to [m * 10^e10] (ties to even), with the sign [neg]:
    how a decimal literal is read.  A negative exponent is a division: the
    quotient is taken with 64 spare bits and the remainder is handed to the
    rounding as the position of the discarded part. *)
Definition number_of_decimal (neg : bool) (m : N) (e10 : Z) : number :=
  match m with
  | N0 => S754_zero neg
  | Npos p =>
      if 0 <=? e10
      then binary_round 53 1024 neg (Z.to_pos (Zpos p * 10 ^ e10)) 0
      else
        let d := 10 ^ (- e10) in
        let s := 64 + Z.log2_up d in
        let (q, r) := Z.div_eucl (Z.shiftl (Zpos p) s) d in
        binary_round_aux 53 1024 neg q (- s)
          (if r =? 0 then loc_Exact else loc_Inexact (2 * r ?= d))
  end.

Definition number_of_N (n : N) : number := number_of_decimal false n 0.

(** The integer a Number denotes, when it denotes one. *)
Definition integer_of_number (x : number) : option Z :=
  match x with
  | S754_zero _ => Some 0
  | S754_finite s m e =>
      let sign := if s then (-1) else 1 in
      if 0 <=? e then Some (sign * (Zpos m * 2 ^ e))
      else
        let d := 2 ^ (- e) in
        if Zpos m mod d =? 0 then Some (sign * (Zpos m / d)) else None
  | _ => None
  end.

Definition number_eqb (x y : number) : bool :=
  match x, y with
  | S754_zero a, S754_zero b => Bool.eqb a b
  | S754_infinity a, S754_infinity b => Bool.eqb a b
  | S754_nan, S754_nan => true
  | S754_finite a m e, S754_finite b m' e' =>
      Bool.eqb a b && Pos.eqb m m' && Z.eqb e e'
  | _, _ => false
  end.

(** ** [Number::toString] (radix 10)

    For a positive finite [x = num / den] the specification asks for
    integers [n], [k], [s] with [10^(k-1) <= s < 10^k], such that
    [s * 10^(n-k)] reads back as [x], with [k] as small as possible (and,
    among those, [s * 10^(n-k)] closest to [x]). *)

(** [num / den < 10^n] *)
Definition below_pow10 (num den n : Z) : bool :=
  if 0 <=? n then num <? den * 10 ^ n else num * 10 ^ (- n) <? den.

Fixpoint first_pow10_above (fuel : nat) (num den n : Z) : Z :=
  match fuel with
  | O => n
  | S f => if below_pow10 num den n then n else first_pow10_above f num den (n + 1)
  end.

(** The [n] with [10^(n-1) <= num/den < 10^n]. *)
Definition decimal_exponent (num den : Z) : Z :=
  let n0 := (Z.log2 num - Z.log2 den) * 30103 / 100000 - 1 in
  first_pow10_above 8 num den n0.

(** The [k]-digit candidates for [x = num/den], given [n]: the digit string
    [s] and the decimal point position. *)
Definition shortest_at (x : number) (num den n k : Z) : option (Z * Z) :=
  let p := k - n in
  let snum := if 0 <=? p then num * 10 ^ p else num in
  let sden := if 0 <=? p then den else den * 10 ^ (- p) in
  let lo := snum / sden in
  let r := snum mod sden in
  let hi := lo + 1 in
  let reads s := number_eqb (number_of_decimal false (Z.to_N s) (n - k)) x in
  let hi_cand := if hi =? 10 ^ k then (10 ^ (k - 1), n + 1) else (hi, n) in
  if r =? 0 then Some (lo, n)
  else
    match reads lo, reads hi with
    | true, true =>
        match 2 * r ?= sden with
        | Lt => Some (lo, n)
        | Gt => Some hi_cand
        | Eq => if Z.even lo then Some (lo, n) else Some hi_cand
        end
    | true, false => Some (lo, n)
    | false, true => Some hi_cand
    | false, false => None
    end.

Fixpoint shortest_from (fuel : nat) (x : number) (num den n k : Z) : Z * Z :=
  match fuel with
  | O => (0, 0)
  | S f =>
      match shortest_at x num den n k with
      | Some r => r
      | None => shortest_from f x num den n (k + 1)
      end
  end.

Definition zeros (n : Z) : jsstring := repeat 48%N (Z.to_nat n).

Definition format_decimal (s n : Z) : jsstring :=
  let ds := decimal_of_N (Z.to_N s) in
  let k := Z.of_nat (length ds) in
  if (k <=? n) && (n <=? 21) then ds ++ zeros (n - k)
  else if (0 <? n) && (n <=? 21)
  then firstn (Z.to_nat n) ds ++ js "." ++ skipn (Z.to_nat n) ds
  else if (-6 <? n) && (n <=? 0) then js "0." ++ zeros (- n) ++ ds
  else
    let e := n - 1 in
    let sign := if e <? 0 then js "-" else js "+" in
    let ex := js "e" ++ sign ++ decimal_of_N (Z.to_N (Z.abs e)) in
    if k =? 1 then ds ++ ex
    else firstn 1 ds ++ js "." ++ skipn 1 ds ++ ex.

Definition Number_toString (x : number) : jsstring :=
  match x with
  | S754_nan => js "NaN"
  | S754_zero _ => js "0"
  | S754_infinity s => if s then js "-Infinity" else js "Infinity"
  | S754_finite sg m e =>
      let num := if 0 <=? e then Zpos m * 2 ^ e else Zpos m in
      let den := if 0 <=? e then 1 else 2 ^ (- e) in
      let n := decimal_exponent num den in
      let '(s, n') := shortest_from 17 (S754_finite false m e) num den n 1 in
      (if sg then js "-" else []) ++ format_decimal s n'
  end.

(** ** Reading a numeric string: [StringToNumber] *)

Definition digit_value (base c : N) : option N :=
  let v :=
    if N.leb 48 c && N.leb c 57 then Some (c - 48)%N
    else if N.leb 97 c && N.leb c 102 then Some (c - 87)%N
    else if N.leb 65 c && N.leb c 70 then Some (c - 55)%N
    else None in
  match v with
  | Some d => if N.ltb d base then Some d else None
  | None => None
  end.

(** The longest prefix of digits in [base], as digit values, and the rest. *)
Fixpoint span_digits (base : N) (s : jsstring) : list N * jsstring :=
  match s with
  | c :: s' =>
      match digit_value base c with
      | Some d => let (ds, rest) := span_digits base s' in (d :: ds, rest)
      | None => ([], s)
      end
  | [] => ([], [])
  end.

Definition N_of_digits (base : N) (ds : list N) : N :=
  fold_left (fun acc d => acc * base + d)%N ds 0%N.

(** An exponent part [e], [e+] or [e-] followed by digits; [None] when what
    follows is not one. *)
Definition scan_exponent (s : jsstring) : option (Z * jsstring) :=
  match s with
  | c :: s1 =>
      if (N.eqb c 101 || N.eqb c 69)%bool then
        let '(neg, s2) :=
          match expect 43 s1, expect 45 s1 with
          | Some t, _ => (false, t)
          | None, Some t => (true, t)
          | None, None => (false, s1)
          end in
        match span_digits 10 s2 with
        | ([], _) => None
        | (ds, rest) =>
            let e := Z.of_N (N_of_digits 10 ds) in
            Some (if neg then - e else e, rest)
        end
      else None
  | [] => None
  end.

(** [StrUnsignedDecimalLiteral], which must use up the whole string. *)
Definition unsigned_decimal (neg : bool) (s : jsstring) : number :=
  if decide (s = js "Infinity") then S754_infinity neg
  else
    let (ip, s1) := span_digits 10 s in
    let (fp, s2) :=
      match expect 46 s1 with
      | Some t => span_digits 10 t
      | None => ([], s1)
      end in
    match ip, fp with
    | [], [] => S754_nan
    | _, _ =>
        let m := N_of_digits 10 (ip ++ fp) in
        let scale := - Z.of_nat (length fp) in
        match s2 with
        | [] => number_of_decimal neg m scale
        | _ =>
            match scan_exponent s2 with
            | Some (e, []) => number_of_decimal neg m (e + scale)
            | _ => S754_nan
            end
        end
    end.

Definition radix_literal (base : N) (s : jsstring) : number :=
  match span_digits base s with
  | (d :: ds, []) => number_of_N (N_of_digits base (d :: ds))
  | _ => S754_nan
  end.

(** [StringToNumber]: the Number of a string, [NaN] when it is not a numeric
    literal, [+0] when it is blank. *)
Definition StringToNumber (s : jsstring) : number :=
  match trim s with
  | [] => S754_zero false
  | 48%N :: c :: t =>
      if (N.eqb c 120 || N.eqb c 88)%bool then radix_literal 16 t
      else if (N.eqb c 111 || N.eqb c 79)%bool then radix_literal 8 t
      else if (N.eqb c 98 || N.eqb c 66)%bool then radix_literal 2 t
      else unsigned_decimal false (48%N :: c :: t)
  | 43%N :: t => unsigned_decimal false t
  | 45%N :: t => unsigned_decimal true t
  | t => unsigned_decimal false t
  end.

(* ===================================================================== *)
(** * Values, exceptions and conversions *)
(* ===================================================================== *)

(** A value of type [any]: what [JSON.parse] and [response.json()] produce,
    and [undefined]. An object keeps its own properties in insertion
    order. *)
Inductive value : Type :=
  | VUndefined
  | VNull
  | VBool (b : bool)
  | VNum (n : number)
  | VStr (s : jsstring)
  | VArr (items : list value)
  | VObj (props : list (jsstring * value)).

(** What a [catch] clause receives: an [Error] instance with its [message],
    or something that is not an [Error]. *)
Inductive thrown : Type :=
  | ErrorObj (message : jsstring)
  | NonError.

(** The outcome of running a piece of the program. *)
Inductive completion (A : Type) : Type :=
  | Normal (a : A)
  | Throw (e : thrown).
Arguments Normal {A} a.
Arguments Throw {A} e.

Definition bind {A B} (c : completion A) (k : A -> completion B) : completion B :=
  match c with
  | Normal a => k a
  | Throw e => Throw e
  end.

Declare Scope js_scope.
Delimit Scope js_scope with js.
Notation "x <- c ;; k" := (bind c (fun x => k))
  (at level 60, c at next level, right associativity) : js_scope.
Notation "c ;;; k" := (bind c (fun _ => k))
  (at level 60, right associativity) : js_scope.
Local Open Scope js_scope.

(** [try { body } catch (error) { handler(error) }] *)
Definition try_catch {A} (body : completion A) (handler : thrown -> completion A)
  : completion A :=
  match body with
  | Normal a => Normal a
  | Throw e => handler e
  end.

(** [throw new Error(msg)] *)
Definition throw_Error {A} (msg : jsstring) : completion A := Throw (ErrorObj msg).

(** [error instanceof Error ? error.message : "Unknown error"] *)
Definition message_or_unknown (e : thrown) : jsstring :=
  match e with
  | ErrorObj m => m
  | NonError => js "Unknown error"
  end.

(** The engine's own [TypeError]s and [SyntaxError]s are [Error] instances;
    their texts are the engine's (here V8's wording). *)
Definition TypeError_read_of (what key : jsstring) : thrown :=
  ErrorObj (js "Cannot read properties of " ++ what ++ js " (reading '" ++ key ++ js "')").
Definition TypeError_not_a_function (what : jsstring) : thrown :=
  ErrorObj (what ++ js " is not a function").
Definition TypeError_to_primitive : thrown :=
  ErrorObj (js "Cannot convert object to primitive value").
Definition TypeError_destructure (what : jsstring) : thrown :=
  ErrorObj (js "Cannot destructure '" ++ what ++ js "' as it is " ++ what ++ js ".").
Definition SyntaxError_JSON : thrown :=
  ErrorObj (js "Unexpected token in JSON").

(** An own property of an object. *)
Fixpoint lookup_prop (key : jsstring) (props : list (jsstring * value)) : option value :=
  match props with
  | [] => None
  | (k, v) :: rest => if decide (k = key) then Some v else lookup_prop key rest
  end.

(** [Object.defineProperty]-style store used by [JSON.parse]: a repeated key
    keeps its place and takes the later value. *)
Fixpoint set_prop (key : jsstring) (v : value) (props : list (jsstring * value))
  : list (jsstring * value) :=
  match props with
  | [] => [(key, v)]
  | (k, w) :: rest =>
      if decide (k = key) then (k, v) :: rest else (k, w) :: set_prop key v rest
  end.

(** [v.key] for the property names this program reads ([results], [title],
    [image], ...): none of them is defined on a built-in prototype, so the
    read finds an own property of an object or nothing; reading from [null]
    or [undefined] throws. *)
Definition get_prop (v : value) (key : jsstring) : completion value :=
  match v with
  | VUndefined => Throw (TypeError_read_of (js "undefined") key)
  | VNull => Throw (TypeError_read_of (js "null") key)
  | VObj props => Normal (default VUndefined (lookup_prop key props))
  | _ => Normal VUndefined
  end.

(** [v?.key] *)
Definition get_prop_opt (v : value) (key : jsstring) : value :=
  match v with
  | VObj props => default VUndefined (lookup_prop key props)
  | _ => VUndefined
  end.

(** [v?.[0]] *)
Definition get_first_opt (v : value) : value :=
  match v with
  | VArr items => default VUndefined (head items)
  | VStr s => match s with c :: _ => VStr [c] | [] => VUndefined end
  | VObj props => default VUndefined (lookup_prop (js "0") props)
  | _ => VUndefined
  end.

(** [Array.isArray(v)], and the items of an array. *)
Definition Array_isArray (v : value) : bool :=
  match v with
  | VArr _ => true
  | _ => false
  end.

Definition items_of (v : value) : list value :=
  match v with
  | VArr items => items
  | _ => []
  end.

(** [ToBoolean]: what [!v], [v || w] and [if (v)] look at. *)
Definition ToBoolean (v : value) : bool :=
  match v with
  | VUndefined | VNull => false
  | VBool b => b
  | VNum n => negb (is_zero n || is_NaN n)
  | VStr s => match s with [] => false | _ => true end
  | VArr _ | VObj _ => true
  end.

Definition falsy (v : value) : bool := negb (ToBoolean v).

(** [a || b] *)
Definition or_else (a b : value) : value := if ToBoolean a then a else b.

(** [Array.prototype.join] over a conversion of the elements: [undefined]
    and [null] give the empty string. *)
Definition join_with (conv : value -> completion jsstring) (sep : jsstring)
  : list value -> completion jsstring :=
  fix go (items : list value) : completion jsstring :=
    let elem (x : value) :=
      match x with
      | VUndefined | VNull => Normal []
      | _ => conv x
      end in
    match items with
    | [] => Normal []
    | [x] => elem x
    | x :: rest => s <- elem x ;; r <- go rest ;; Normal (s ++ sep ++ r)
    end.

(** [ToString]: [String(v)] and [`${v}`].  An array is joined with commas.
    A parsed object has no callable property of its own, so [toString] is
    [Object.prototype.toString] unless the object shadows it, and then
    neither [toString] nor [valueOf] yields a primitive. *)
Fixpoint ToString (v : value) : completion jsstring :=
  match v with
  | VUndefined => Normal (js "undefined")
  | VNull => Normal (js "null")
  | VBool b => Normal (if b then js "true" else js "false")
  | VNum n => Normal (Number_toString n)
  | VStr s => Normal s
  | VArr items => join_with ToString (js ",") items
  | VObj props =>
      match lookup_prop (js "toString") props with
      | Some _ => Throw TypeError_to_primitive
      | None => Normal (js "[object Object]")
      end
  end.

(** [items.join(sep)] *)
Definition Array_join (sep : jsstring) (items : list value) : completion jsstring :=
  join_with ToString sep items.

(** [ToNumber]: [Number(v)]. *)
Definition ToNumber (v : value) : completion number :=
  match v with
  | VUndefined => Normal S754_nan
  | VNull => Normal (S754_zero false)
  | VBool b => Normal (if b then number_of_N 1 else S754_zero false)
  | VNum n => Normal n
  | VStr s => Normal (StringToNumber s)
  | VArr _ | VObj _ => s <- ToString v ;; Normal (StringToNumber s)
  end.

(* ===================================================================== *)
(** * [JSON.parse] *)
(* ===================================================================== *)

Definition is_json_ws (c : N) : bool :=
  (N.eqb c 32 || N.eqb c 9 || N.eqb c 10 || N.eqb c 13)%bool.

Fixpoint skip_ws (s : jsstring) : jsstring :=
  match s with
  | c :: s' => if is_json_ws c then skip_ws s' else s
  | [] => []
  end.

Definition hex4 (a b c d : N) : option N :=
  match digit_value 16 a, digit_value 16 b, digit_value 16 c, digit_value 16 d with
  | Some x, Some y, Some z, Some w => Some (((x * 16 + y) * 16 + z) * 16 + w)%N
  | _, _, _, _ => None
  end.

Definition simple_escape (c : N) : option N :=
  if N.eqb c 34 then Some 34%N          (* quote *)
  else if N.eqb c 92 then Some 92%N     (* backslash *)
  else if N.eqb c 47 then Some 47%N     (* slash *)
  else if N.eqb c 98 then Some 8%N      (* b *)
  else if N.eqb c 102 then Some 12%N    (* f *)
  else if N.eqb c 110 then Some 10%N    (* n *)
  else if N.eqb c 114 then Some 13%N    (* r *)
  else if N.eqb c 116 then Some 9%N     (* t *)
  else None.

(** The characters of a JSON string after its opening quote, up to the
    closing one. *)
Fixpoint parse_string_body (s : jsstring) (acc : jsstring) : option (jsstring * jsstring) :=
  match s with
  | [] => None
  | c :: s' =>
      if N.eqb c 34 then Some (rev acc, s')
      else if N.eqb c 92 then
        match s' with
        | [] => None
        | e :: s'' =>
            if N.eqb e 117 then
              match s'' with
              | h1 :: h2 :: h3 :: h4 :: rest =>
                  match hex4 h1 h2 h3 h4 with
                  | Some u => parse_string_body rest (u :: acc)
                  | None => None
                  end
              | _ => None
              end
            else
              match simple_escape e with
              | Some u => parse_string_body s'' (u :: acc)
              | None => None
              end
        end
      else if N.ltb c 32 then None
      else parse_string_body s' (c :: acc)
  end.

(** A JSON number: an optional minus, an integer part without a leading
    zero (unless it is 0 alone), an optional fraction with at least one
    digit, an optional exponent. *)
Definition parse_number (s : jsstring) : option (number * jsstring) :=
  let '(neg, s1) :=
    match expect 45 s with
    | Some t => (true, t)
    | None => (false, s)
    end in
  let (ip, s2) := span_digits 10 s1 in
  match ip with
  | [] => None
  | 0%N :: _ :: _ => None
  | _ =>
      let frac :=
        match expect 46 s2 with
        | Some t =>
            match span_digits 10 t with
            | ([], _) => None
            | (fp, s3) => Some (fp, s3)
            end
        | None => Some ([], s2)
        end in
      match frac with
      | None => None
      | Some (fp, s3) =>
          let m := N_of_digits 10 (ip ++ fp) in
          let scale := - Z.of_nat (length fp) in
          match s3 with
          | c :: _ =>
              if (N.eqb c 101 || N.eqb c 69)%bool then
                match scan_exponent s3 with
                | Some (e, s4) => Some (number_of_decimal neg m (e + scale), s4)
                | None => None
                end
              else Some (number_of_decimal neg m scale, s3)
          | [] => Some (number_of_decimal neg m scale, s3)
          end
      end
  end.

Definition parse_keyword (word : jsstring) (v : value) (s : jsstring)
  : option (value * jsstring) :=
  if starts_with word s then Some (v, skipn (length word) s) else None.

(** A value that is not an array or an object: a string, a keyword or a
    number at the head of [s]. *)
Definition parse_scalar (s : jsstring) : option (value * jsstring) :=
  match s with
  | [] => None
  | c :: s' =>
      if N.eqb c 34 then
        match parse_string_body s' [] with
        | Some (str, rest) => Some (VStr str, rest)
        | None => None
        end
      else if N.eqb c 116 then parse_keyword (js "true") (VBool true) s
      else if N.eqb c 102 then parse_keyword (js "false") (VBool false) s
      else if N.eqb c 110 then parse_keyword (js "null") VNull s
      else
        match parse_number s with
        | Some (n, rest) => Some (VNum n, rest)
        | None => None
        end
  end.

(** One JSON value at the head of [s], and what follows it; the items of an
    array after its opening bracket; the members of an object after its
    opening brace.  Every call spends one unit of [fuel]; twice the length
    of the text, and two, are enough ([JSON_parse_fuel] below). *)
Fixpoint parse_value (fuel : nat) (s : jsstring) : option (value * jsstring) :=
  match fuel with
  | O => None
  | S f =>
      match expect 91 s, expect 123 s with
      | Some s', _ =>                                   (* [ *)
          match expect 93 (skip_ws s') with
          | Some rest => Some (VArr [], rest)
          | None => parse_elements f (skip_ws s') []
          end
      | None, Some s' =>                                (* { *)
          match expect 125 (skip_ws s') with
          | Some rest => Some (VObj [], rest)
          | None => parse_members f (skip_ws s') []
          end
      | None, None => parse_scalar s
      end
  end
with parse_elements (fuel : nat) (s : jsstring) (acc : list value)
  : option (value * jsstring) :=
  match fuel with
  | O => None
  | S f =>
      match parse_value f s with
      | Some (v, r) =>
          match expect 44 (skip_ws r), expect 93 (skip_ws r) with
          | Some r', _ => parse_elements f (skip_ws r') (v :: acc)
          | None, Some r' => Some (VArr (rev (v :: acc)), r')
          | None, None => None
          end
      | None => None
      end
  end
with parse_members (fuel : nat) (s : jsstring) (acc : list (jsstring * value))
  : option (value * jsstring) :=
  match fuel with
  | O => None
  | S f =>
      match expect 34 s with
      | Some s2 =>
          match parse_string_body s2 [] with
          | Some (key, r0) =>
              match expect 58 (skip_ws r0) with
              | Some r1 =>
                  match parse_value f (skip_ws r1) with
                  | Some (v, r) =>
                      match expect 44 (skip_ws r), expect 125 (skip_ws r) with
                      | Some r', _ => parse_members f (skip_ws r') (set_prop key v acc)
                      | None, Some r' => Some (VObj (set_prop key v acc), r')
                      | None, None => None
                      end
                  | None => None
                  end
              | None => None
              end
          | None => None
          end
      | None => None
      end
  end.

(** [JSON.parse(text)]: one value between optional white space, or a
    [SyntaxError]. *)
Definition JSON_parse (text : jsstring) : completion value :=
  match parse_value (2 * length text + 2) (skip_ws text) with
  | Some (v, rest) =>
      match skip_ws rest with
      | [] => Normal v
      | _ => Throw SyntaxError_JSON
      end
  | None => Throw SyntaxError_JSON
  end.

(* ===================================================================== *)
(** * The environment and the network *)
(* ===================================================================== *)

(** [process.env]: the variables that are set, with their values. *)
Abbreviation environment := (gmap jsstring jsstring).

(** [!process.env[key]]: unset, or set to the empty string. *)
Definition env_missing (env : environment) (key : jsstring) : bool :=
  match env !! key with
  | Some (_ :: _) => false
  | _ => true
  end.

(** [process.env.KEY!] placed in a template literal or in
    [URLSearchParams]: an unset variable reads as the text [undefined]. *)
Definition env_text (env : environment) (key : jsstring) : jsstring :=
  default (js "undefined") (env !! key).

(** ** [URLSearchParams]

    The names and the values of a [URLSearchParams] object are [USVString]s:
    a text handed to the constructor or to [append] is first converted, and
    the conversion replaces every surrogate code unit that is not part of a
    pair by U+FFFD. *)

Definition is_high_surrogate (c : N) : bool := N.leb 55296 c && N.leb c 56319.
Definition is_low_surrogate (c : N) : bool := N.leb 56320 c && N.leb c 57343.

Definition replacement_character : N := 65533.

Fixpoint ToUSVString (s : jsstring) : jsstring :=
  match s with
  | [] => []
  | c :: rest =>
      if is_high_surrogate c then
        match rest with
        | d :: rest' =>
            if is_low_surrogate d then c :: d :: ToUSVString rest'
            else replacement_character :: ToUSVString rest
        | [] => [replacement_character]
        end
      else if is_low_surrogate c then replacement_character :: ToUSVString rest
      else c :: ToUSVString rest
  end.

(** [new URLSearchParams({ k1: v1, ... })] *)
Definition URLSearchParams (init : list (jsstring * jsstring))
  : list (jsstring * jsstring) :=
  List.map (fun kv => (ToUSVString (fst kv), ToUSVString (snd kv))) init.

(** [params.append(name, value)] *)
Definition append (params : list (jsstring * jsstring)) (name value : jsstring)
  : list (jsstring * jsstring) :=
  params ++ [(ToUSVString name, ToUSVString value)].

Inductive http_method := GET | POST.

(** The body handed to [fetch]: nothing, [JSON.stringify(v)], or a
    [URLSearchParams] object (sent form-encoded).  Both are kept in
    structured form; the serialisation is the platform's. *)
Inductive request_body :=
  | NoBody
  | JsonBody (v : value)
  | FormBody (params : list (jsstring * jsstring)).

(** One call of [fetch]. [req_query] is the [URLSearchParams] object that is
    interpolated after [?] in the URL (empty when the call has none). *)
Record Request := {
  req_url : jsstring;
  req_query : list (jsstring * jsstring);
  req_method : http_method;
  req_content_type : option jsstring;
  req_body : request_body
}.

Record Response := {
  status : N;
  statusText : jsstring;
  body : jsstring
}.

(** [response.ok] *)
Definition ok (r : Response) : bool := N.leb 200 (status r) && N.leb (status r) 299.

(** [await response.json()] *)
Definition response_json (r : Response) : completion value := JSON_parse (body r).

(** What the outside world answers to a request: the promise of [fetch]
    rejects, or resolves to a response. *)
Inductive fetch_outcome :=
  | Rejected (e : thrown)
  | Resolved (r : Response).

Definition network := Request -> fetch_outcome.

(** [await fetch(...)] *)
Definition fetch (net : network) (req : Request) : completion Response :=
  match net req with
  | Rejected e => Throw e
  | Resolved r => Normal r
  end.

(** [`${response.status} ${response.statusText}`] *)
Definition status_line (r : Response) : jsstring :=
  decimal_of_N (status r) ++ js " " ++ statusText r.

(* ===================================================================== *)
(** * The methods shared by the two servers *)
(* ===================================================================== *)

Record MemeCaption := {
  image : number;
  topText : jsstring;
  bottomText : jsstring
}.

(** What [fetchImgflipTemplates] builds for each entry: [{ id, name }]. *)
Record ImgflipTemplate := {
  id : value;
  name : value
}.

(** ** [validateEnvVars] *)

Definition required : list jsstring :=
  [js "NEWSDATA_API_KEY"; js "GEMINI_API_KEY"; js "IMGFLIP_USERNAME"; js "IMGFLIP_PASSWORD"].

Definition missing_vars (env : environment) : list jsstring :=
  List.filter (env_missing env) required.

Definition validateEnvVars (env : environment) : completion unit :=
  let missing := missing_vars env in
  if Nat.ltb 0 (length missing) then
    throw_Error (js "Missing required environment variables: " ++ join (js ", ") missing)
  else Normal tt.

(** ** [getIndianNewsByTopic] *)

(** The [URLSearchParams] of the news query. *)
Definition news_params (env : environment) (topic : jsstring) : list (jsstring * jsstring) :=
  let params :=
    URLSearchParams
      [ (js "apikey", env_text env (js "NEWSDATA_API_KEY"));
        (js "country", js "in");
        (js "language", js "en");
        (js "size", js "10") ] in
  match trim topic with
  | _ :: _ => append params (js "q") topic
  | [] => params
  end.

Definition news_request (env : environment) (topic : jsstring) : Request :=
  {| req_url := js "https://newsdata.io/api/1/latest";
     req_query := news_params env topic;
     req_method := GET;
     req_content_type := None;
     req_body := NoBody |}.

Definition getIndianNewsByTopic (net : network) (env : environment) (topic : jsstring)
  : completion (list value) :=
  let request := news_request env topic in
  try_catch
    (response <- fetch net request ;;
     if negb (ok response) then
       throw_Error (js "NewsData API error: " ++ status_line response)
     else
       data <- response_json response ;;
       results <- get_prop data (js "results") ;;
       if falsy results || negb (Array_isArray results) then Normal []
       else Normal (items_of results))
    (fun error => throw_Error (js "Failed to fetch news: " ++ message_or_unknown error)).

(** ** [parseMemeCaption] *)

Definition fence_json : jsstring := js "```json".
Definition fence : jsstring := js "```".

(** [caption.replace(/```json/g, '').replace(/```/g, '').trim()]; a value
    that is not a string has no [replace] method. *)
Definition clean_caption (caption : value) : completion jsstring :=
  match caption with
  | VStr s => Normal (trim (remove_all fence (remove_all fence_json s)))
  | VUndefined => Throw (TypeError_read_of (js "undefined") (js "replace"))
  | VNull => Throw (TypeError_read_of (js "null") (js "replace"))
  | _ => Throw (TypeError_not_a_function (js "caption.replace"))
  end.

(** The statements of [parseMemeCaption] that follow [JSON.parse]: the
    check of the three fields and the conversions. *)
Definition caption_of_json (json : value) : completion (option MemeCaption) :=
  img <- get_prop json (js "image") ;;
  if falsy img then Normal None
  else
    top <- get_prop json (js "topText") ;;
    if falsy top then Normal None
    else
      bottom <- get_prop json (js "bottomText") ;;
      if falsy bottom then Normal None
      else
        imageId <- ToNumber img ;;
        if is_NaN imageId then Normal None
        else
          topS <- ToString top ;;
          bottomS <- ToString bottom ;;
          Normal (Some {| image := imageId; topText := topS; bottomText := bottomS |}).

(** The statements inside the [try] block of [parseMemeCaption]. *)
Definition parseMemeCaption_body (caption : value) : completion (option MemeCaption) :=
  cleaned <- clean_caption caption ;;
  json <- JSON_parse cleaned ;;
  caption_of_json json.

Definition parseMemeCaption (caption : value) : completion (option MemeCaption) :=
  try_catch (parseMemeCaption_body caption) (fun _ => Normal None).

(** ** [generateCaption] *)

Definition nl : jsstring := [10%N].

(** The two files word the prompt alike and lay it out differently:
    [index.ts] indents the lines and leaves a blank line before the last
    one. *)
Inductive server := index_ts | app_ts.

Definition prompt (srv : server) (title description templates : jsstring) : jsstring :=
  let head :=
    js "Generate a meme worthy caption for the following news: "
      ++ title ++ js ", " ++ description ++ nl ++ nl in
  match srv with
  | index_ts =>
      head
      ++ js "    Response should be valid JSON in this exact format:" ++ nl
      ++ js "    {" ++ nl
      ++ jsq "      'image': <number>," ++ nl
      ++ jsq "      'topText': '<string>'," ++ nl
      ++ jsq "      'bottomText': '<string>'" ++ nl
      ++ js "    }" ++ nl ++ nl
      ++ js "    The image number should be a template ID from imgflip that's relevant to this meme." ++ nl
      ++ js "    Choose from these template IDs only: " ++ templates ++ nl
      ++ js "    " ++ nl
      ++ js "    Make the meme funny and relevant to the news content."
  | app_ts =>
      head
      ++ js "Response should be valid JSON in this exact format:" ++ nl
      ++ js "{" ++ nl
      ++ jsq "  'image': <template_id>," ++ nl
      ++ jsq "  'topText': '<top_text>'," ++ nl
      ++ jsq "  'bottomText': '<bottom_text>'" ++ nl
      ++ js "}" ++ nl ++ nl
      ++ js "The image number should be a template ID from imgflip that's relevant to this meme." ++ nl
      ++ js "Choose from these template IDs only: " ++ templates ++ nl
      ++ js "Make the meme funny and relevant to the news content."
  end.

Definition caption_request (env : environment) (text : jsstring) : Request :=
  {| req_url :=
       js "https://generativelanguage.googleapis.com/v1beta/models/gemini-2.0-flash:generateContent?key="
         ++ env_text env (js "GEMINI_API_KEY");
     req_query := [];
     req_method := POST;
     req_content_type := Some (js "application/json");
     req_body :=
       JsonBody
         (VObj [(js "contents",
                 VArr [VObj [(js "parts", VArr [VObj [(js "text", VStr text)]])]])]) |}.

(** [data?.candidates?.[0]?.content?.parts?.[0]?.text || ''] *)
Definition first_candidate_text (data : value) : value :=
  or_else
    (get_prop_opt
       (get_first_opt
          (get_prop_opt
             (get_prop_opt (get_first_opt (get_prop_opt data (js "candidates")))
                (js "content"))
             (js "parts")))
       (js "text"))
    (VStr []).

Definition generateCaption (srv : server) (net : network) (env : environment)
    (title description : value) (availableTemplates : list value)
  : completion (option MemeCaption) :=
  titleS <- ToString title ;;
  descriptionS <- ToString description ;;
  templates <- Array_join (js ", ") availableTemplates ;;
  let request := caption_request env (prompt srv titleS descriptionS templates) in
  try_catch
    (res <- fetch net request ;;
     if negb (ok res) then throw_Error (js "Gemini API error: " ++ status_line res)
     else
       data <- response_json res ;;
       let output := first_candidate_text data in
       if falsy output then Normal None
       else parseMemeCaption output)
    (fun err => throw_Error (js "Failed to generate caption: " ++ message_or_unknown err)).

(** ** [generateMeme] *)

Definition meme_request (env : environment) (templateId : number) (top bottom : jsstring)
  : Request :=
  {| req_url := js "https://api.imgflip.com/caption_image";
     req_query := [];
     req_method := POST;
     req_content_type := Some (js "application/x-www-form-urlencoded");
     req_body :=
       FormBody
         (URLSearchParams
            [ (js "template_id", Number_toString templateId);
              (js "username", env_text env (js "IMGFLIP_USERNAME"));
              (js "password", env_text env (js "IMGFLIP_PASSWORD"));
              (js "text0", top);
              (js "text1", bottom) ]) |}.

Definition generateMeme (net : network) (env : environment)
    (templateId : number) (top bottom : jsstring) : completion value :=
  let request := meme_request env templateId top bottom in
  try_catch
    (res <- fetch net request ;;
     if negb (ok res) then throw_Error (js "Imgflip API error: " ++ status_line res)
     else
       data <- response_json res ;;
       success <- get_prop data (js "success") ;;
       if falsy success then
         error_message <- get_prop data (js "error_message") ;;
         text <- ToString error_message ;;
         throw_Error (js "Imgflip API error: " ++ text)
       else
         inner <- get_prop data (js "data") ;;
         Normal (or_else (get_prop_opt inner (js "url")) VNull))
    (fun err => throw_Error (js "Failed to generate meme: " ++ message_or_unknown err)).

(** ** [fetchImgflipTemplates] *)

Definition templates_request : Request :=
  {| req_url := js "https://api.imgflip.com/get_memes";
     req_query := [];
     req_method := GET;
     req_content_type := None;
     req_body := NoBody |}.

(** [({ id, name }) => ({ id, name })]: destructuring [null] or [undefined]
    throws. *)
Definition pick_id_name (entry : value) : completion ImgflipTemplate :=
  match entry with
  | VUndefined => Throw (TypeError_destructure (js "undefined"))
  | VNull => Throw (TypeError_destructure (js "null"))
  | _ =>
      i <- get_prop entry (js "id") ;;
      n <- get_prop entry (js "name") ;;
      Normal {| id := i; name := n |}
  end.

(** [items.map(f)] for an [f] that may throw: left to right, stopping at the
    first exception. *)
Fixpoint map_throwing {A B} (f : A -> completion B) (items : list A) : completion (list B) :=
  match items with
  | [] => Normal []
  | x :: rest => y <- f x ;; ys <- map_throwing f rest ;; Normal (y :: ys)
  end.

(** [json.data.memes.slice(0, 100)] followed by [.map(...)]: an array is
    cut to its first 100 entries; a string can be sliced but has no [map];
    nothing else has a [slice]. *)
Definition slice_100_then_map (memes : value) : completion (list ImgflipTemplate) :=
  match memes with
  | VArr items => map_throwing pick_id_name (firstn 100 items)
  | VStr _ => Throw (TypeError_not_a_function (js "memes.map"))
  | VUndefined => Throw (TypeError_read_of (js "undefined") (js "slice"))
  | VNull => Throw (TypeError_read_of (js "null") (js "slice"))
  | _ => Throw (TypeError_not_a_function (js "json.data.memes.slice"))
  end.

Definition fetchImgflipTemplates (net : network) : completion (list ImgflipTemplate) :=
  try_catch
    (res <- fetch net templates_request ;;
     if negb (ok res) then
       throw_Error (js "Imgflip templates API error: " ++ status_line res)
     else
       json <- response_json res ;;
       success <- get_prop json (js "success") ;;
       if falsy success then throw_Error (js "Imgflip API returned success: false")
       else
         data <- get_prop json (js "data") ;;
         memes <- get_prop data (js "memes") ;;
         slice_100_then_map memes)
    (fun err => throw_Error (js "Failed to fetch templates: " ++ message_or_unknown err)).

(* ===================================================================== *)
(** * The tool handlers *)
(* ===================================================================== *)

(** The arguments of a tool call, at the types its [inputSchema] declares.
    A property that the caller left out is [None]; the whole [arguments]
    object may be left out too. *)
Record FetchNewsArgs := { news_topic : option jsstring }.

Record GenerateCaptionArgs := {
  arg_title : option jsstring;
  arg_description : option jsstring;
  arg_availableTemplates : option (list number)
}.

Record CreateMemeArgs := {
  arg_templateId : option number;
  arg_topText : option jsstring;
  arg_bottomText : option jsstring
}.

Record NewsMemeArgs := {
  arg_topic : option jsstring;
  arg_articleIndex : option number
}.

(** The object a handler answers with; each carries [success: true]. *)
Inductive payload :=
  | NewsPayload (count : nat) (articles : list value)
  | TemplatesPayload (count : nat) (templates : list ImgflipTemplate)
  | CaptionPayload (caption : option MemeCaption)
  | MemePayload (memeUrl : value)
  | NewsMemePayload (title description : value) (caption : MemeCaption) (memeUrl : value).

(** [!s] for an optional string argument. *)
Definition no_text (s : option jsstring) : bool :=
  match s with
  | Some (_ :: _) => false
  | _ => true
  end.

(** [!n] for an optional number argument. *)
Definition no_number (n : option number) : bool :=
  match n with
  | Some x => is_zero x || is_NaN x
  | None => true
  end.

(** [!list] for an optional array argument: an array, even an empty one, is
    truthy. *)
Definition no_list {A} (l : option (list A)) : bool :=
  match l with
  | Some _ => false
  | None => true
  end.

(** [args?.topic || ''] *)
Definition topic_or_empty (t : option jsstring) : jsstring := default [] t.

(** [args?.articleIndex || 0] *)
Definition index_or_zero (i : option number) : number :=
  if no_number i then S754_zero false else default (S754_zero false) i.

(** [news[articleIndex]] for a number: the property key is the decimal text
    of the number, which names an element exactly when the number is a
    whole number within the bounds; any other key reads [undefined]. *)
Definition element_at (news : list value) (articleIndex : number) : value :=
  match integer_of_number articleIndex with
  | Some i =>
      if (0 <=? i) && (i <? Z.of_nat (length news))
      then default VUndefined (news !! Z.to_nat i)
      else VUndefined
  | None => VUndefined
  end.

(** [!article || !article.title || !article.description] *)
Definition article_incomplete (article : value) : completion bool :=
  if falsy article then Normal true
  else
    title <- get_prop article (js "title") ;;
    if falsy title then Normal true
    else
      description <- get_prop article (js "description") ;;
      Normal (falsy description).

(** The statements inside the [try] block of [handleGenerateNewsMeme]. *)
Definition workflow (srv : server) (net : network) (env : environment)
    (topic : jsstring) (articleIndex : number) : completion payload :=
  news <- getIndianNewsByTopic net env topic ;;
  if Nat.eqb (length news) 0 then throw_Error (js "No news articles found")
  else
    let article := element_at news articleIndex in
    incomplete <- article_incomplete article ;;
    if incomplete then throw_Error (js "Selected article missing title or description")
    else
      templates <- fetchImgflipTemplates net ;;
      let templateIds := List.map id templates in
      title <- get_prop article (js "title") ;;
      description <- get_prop article (js "description") ;;
      caption <- generateCaption srv net env title description templateIds ;;
      match caption with
      | None => throw_Error (js "Failed to generate meme caption")
      | Some c =>
          memeUrl <- generateMeme net env (image c) (topText c) (bottomText c) ;;
          Normal (NewsMemePayload title description c memeUrl)
      end.

Definition workflow_prefix : jsstring := js "Failed to generate news meme: ".

Definition missing_caption_parameters : jsstring :=
  js "Missing required parameters: title, description, availableTemplates".

Definition missing_meme_parameters : jsstring :=
  js "Missing required parameters: templateId, topText, bottomText".

(** A tool call: the name of the tool with its arguments. *)
Inductive tool_call :=
  | fetch_indian_news (args : option FetchNewsArgs)
  | get_meme_templates
  | generate_meme_caption (args : option GenerateCaptionArgs)
  | create_meme (args : option CreateMemeArgs)
  | generate_news_meme (args : option NewsMemeArgs)
  | unknown_tool (name : jsstring).

(** What the caller of a tool receives: the object of the handler, or the
    message of the error it raised. *)
Inductive answer :=
  | Success (p : payload)
  | Failure (message : jsstring).

(** ** [src/index.ts]: the stdio tool server

    A handler answers [{ content: [{ type: "text", text: JSON.stringify(p,
    null, 2) }] }]; the model keeps the object [p]. *)
Module IndexTs.

Definition handleFetchNews (net : network) (env : environment)
    (args : option FetchNewsArgs) : completion payload :=
  validateEnvVars env ;;;
  let topic := topic_or_empty (args ≫= news_topic) in
  news <- getIndianNewsByTopic net env topic ;;
  Normal (NewsPayload (length news) news).

Definition handleGetTemplates (net : network) : completion payload :=
  templates <- fetchImgflipTemplates net ;;
  Normal (TemplatesPayload (length templates) templates).

Definition handleGenerateCaption (net : network) (env : environment)
    (args : option GenerateCaptionArgs) : completion payload :=
  validateEnvVars env ;;;
  match args with
  | None => Throw (TypeError_destructure (js "undefined"))
  | Some a =>
      if no_text (arg_title a) || no_text (arg_description a)
         || no_list (arg_availableTemplates a)
      then throw_Error missing_caption_parameters
      else
        caption <- generateCaption index_ts net env
                     (VStr (default [] (arg_title a)))
                     (VStr (default [] (arg_description a)))
                     (List.map VNum (default [] (arg_availableTemplates a))) ;;
        Normal (CaptionPayload caption)
  end.

Definition handleCreateMeme (net : network) (env : environment)
    (args : option CreateMemeArgs) : completion payload :=
  validateEnvVars env ;;;
  match args with
  | None => Throw (TypeError_destructure (js "undefined"))
  | Some a =>
      if no_number (arg_templateId a) || no_text (arg_topText a) || no_text (arg_bottomText a)
      then throw_Error missing_meme_parameters
      else
        memeUrl <- generateMeme net env
                     (default S754_nan (arg_templateId a))
                     (default [] (arg_topText a))
                     (default [] (arg_bottomText a)) ;;
        Normal (MemePayload memeUrl)
  end.

Definition handleGenerateNewsMeme (net : network) (env : environment)
    (args : option NewsMemeArgs) : completion payload :=
  validateEnvVars env ;;;
  let topic := topic_or_empty (args ≫= arg_topic) in
  let articleIndex := index_or_zero (args ≫= arg_articleIndex) in
  try_catch
    (workflow index_ts net env topic articleIndex)
    (fun error => throw_Error (workflow_prefix ++ message_or_unknown error)).

(** The [CallToolRequestSchema] handler: an error becomes the text
    [Error: <message>]; [Failure] holds the message. *)
Definition callTool (net : network) (env : environment) (call : tool_call) : answer :=
  let result :=
    match call with
    | fetch_indian_news args => handleFetchNews net env args
    | get_meme_templates => handleGetTemplates net
    | generate_meme_caption args => handleGenerateCaption net env args
    | create_meme args => handleCreateMeme net env args
    | generate_news_meme args => handleGenerateNewsMeme net env args
    | unknown_tool name => throw_Error (js "Unknown tool: " ++ name)
    end in
  match result with
  | Normal p => Success p
  | Throw error => Failure (message_or_unknown error)
  end.

End IndexTs.

(** ** [src/app.ts]: the REST server

    Here the credentials are checked once, in [handleToolRequest], before
    the handler of the tool runs. *)
Module AppTs.

Definition handleFetchNews (net : network) (env : environment)
    (args : option FetchNewsArgs) : completion payload :=
  let topic := topic_or_empty (args ≫= news_topic) in
  news <- getIndianNewsByTopic net env topic ;;
  Normal (NewsPayload (length news) news).

Definition handleGetTemplates (net : network) : completion payload :=
  templates <- fetchImgflipTemplates net ;;
  Normal (TemplatesPayload (length templates) templates).

Definition handleGenerateCaption (net : network) (env : environment)
    (args : option GenerateCaptionArgs) : completion payload :=
  match args with
  | None => Throw (TypeError_destructure (js "undefined"))
  | Some a =>
      if no_text (arg_title a) || no_text (arg_description a)
         || no_list (arg_availableTemplates a)
      then throw_Error missing_caption_parameters
      else
        caption <- generateCaption app_ts net env
                     (VStr (default [] (arg_title a)))
                     (VStr (default [] (arg_description a)))
                     (List.map VNum (default [] (arg_availableTemplates a))) ;;
        Normal (CaptionPayload caption)
  end.

Definition handleCreateMeme (net : network) (env : environment)
    (args : option CreateMemeArgs) : completion payload :=
  match args with
  | None => Throw (TypeError_destructure (js "undefined"))
  | Some a =>
      if no_number (arg_templateId a) || no_text (arg_topText a) || no_text (arg_bottomText a)
      then throw_Error missing_meme_parameters
      else
        memeUrl <- generateMeme net env
                     (default S754_nan (arg_templateId a))
                     (default [] (arg_topText a))
                     (default [] (arg_bottomText a)) ;;
        Normal (MemePayload memeUrl)
  end.

Definition handleGenerateNewsMeme (net : network) (env : environment)
    (args : option NewsMemeArgs) : completion payload :=
  let topic := topic_or_empty (args ≫= arg_topic) in
  let articleIndex := index_or_zero (args ≫= arg_articleIndex) in
  try_catch
    (workflow app_ts net env topic articleIndex)
    (fun error => throw_Error (workflow_prefix ++ message_or_unknown error)).

(** [handleToolRequest]: the credentials are checked, then the handler of
    the tool runs; an error is answered with status 500 and [{ success:
    false, error: <message> }]. *)
Definition handleToolRequest (net : network) (env : environment) (call : tool_call)
  : answer :=
  let result :=
    validateEnvVars env ;;;
    match call with
    | fetch_indian_news args => handleFetchNews net env args
    | get_meme_templates => handleGetTemplates net
    | generate_meme_caption args => handleGenerateCaption net env args
    | create_meme args => handleCreateMeme net env args
    | generate_news_meme args => handleGenerateNewsMeme net env args
    | unknown_tool name => throw_Error (js "Unknown tool: " ++ name)
    end in
  match result with
  | Normal p => Success p
  | Throw error => Failure (message_or_unknown error)
  end.

End AppTs.

(* ===================================================================== *)
(** * Properties *)
(* ===================================================================== *)

(** ** Numbers and their texts on sample values *)

Definition number_of_text (s : string) : number := StringToNumber (js s).

Example number_text_tenth : Number_toString (number_of_text "0.1") = js "0.1".
Proof. vm_compute. reflexivity. Qed.

Example number_text_large : Number_toString (number_of_text "1e21") = js "1e+21".
Proof. vm_compute. reflexivity. Qed.

Example number_text_rounded :
  Number_toString (number_of_text "123456789012345678901") = js "123456789012345680000".
Proof. vm_compute. reflexivity. Qed.

Example number_text_small : Number_toString (number_of_text "0.0000001") = js "1e-7".
Proof. vm_compute. reflexivity. Qed.

Example number_text_sum :
  Number_toString (number_of_text "0.30000000000000004") = js "0.30000000000000004".
Proof. vm_compute. reflexivity. Qed.

Example number_text_odd_integer :
  Number_toString (number_of_text "9007199254740993") = js "9007199254740992".
Proof. vm_compute. reflexivity. Qed.

Example number_text_least : Number_toString (number_of_text "5e-324") = js "5e-324".
Proof. vm_compute. reflexivity. Qed.

Example number_text_greatest :
  Number_toString (number_of_text "1.7976931348623157e308") = js "1.7976931348623157e+308".
Proof. vm_compute. reflexivity. Qed.

Example number_underflow : number_of_text "2.4e-324" = S754_zero false.
Proof. vm_compute. reflexivity. Qed.

Example number_overflow : number_of_text "1e400" = S754_infinity false.
Proof. vm_compute. reflexivity. Qed.

Example number_hexadecimal : Number_toString (number_of_text "0x1F") = js "31".
Proof. vm_compute. reflexivity. Qed.

Example number_padded : Number_toString (number_of_text " 12 ") = js "12".
Proof. vm_compute. reflexivity. Qed.

Example number_blank : number_of_text "  " = S754_zero false.
Proof. vm_compute. reflexivity. Qed.

Example number_not_numeric : number_of_text "12px" = S754_nan.
Proof. vm_compute. reflexivity. Qed.

Example number_separator : number_of_text "1_000" = S754_nan.
Proof. vm_compute. reflexivity. Qed.

Example number_101 : number_of_N 101 = S754_finite false (101 * 2 ^ 46) (-46).
Proof. vm_compute. reflexivity. Qed.

(** The decimal text of a natural number denotes that number. *)
Definition decimal_value (s : jsstring) (start : N) : N :=
  fold_left (fun acc c => acc * 10 + (c - 48))%N s start.

Lemma digits_fuel_value (fuel : nat) : forall (n : N) (acc : jsstring),
  (n < 2 ^ N.of_nat fuel)%N ->
  decimal_value (digits_fuel fuel n acc) 0 = decimal_value acc n.
Proof.
  induction fuel as [|f IH]; intros n acc Hn.
  - cbn in Hn. assert (n = 0%N) as -> by lia. reflexivity.
  - cbn [digits_fuel]. destruct (N.ltb_spec n 10) as [Hlt | Hge].
    + unfold decimal_value. cbn [fold_left]. f_equal.
      rewrite (N.mod_small n 10) by done. lia.
    + rewrite IH.
      * unfold decimal_value. cbn [fold_left]. f_equal.
        pose proof (N.div_mod n 10 ltac:(lia)) as Hdiv. clear Hn IH.
        generalize dependent (N.div n 10). generalize (N.modulo n 10). lia.
      * rewrite Nat2N.inj_succ, N.pow_succ_r' in Hn.
        apply N.Div0.div_lt_upper_bound; lia.
Qed.

Lemma decimal_of_N_value (n : N) : decimal_value (decimal_of_N n) 0 = n.
Proof.
  unfold decimal_of_N. rewrite digits_fuel_value; [reflexivity |].
  rewrite Nat2N.inj_succ, N2Nat.id, N.pow_succ_r'.
  destruct n as [|p]; [done |].
  destruct (N.log2_spec (N.pos p) ltac:(lia)) as [_ H].
  by rewrite N.pow_succ_r' in H.
Qed.

(** ** Substrings *)

Lemma contains_refl (s : jsstring) : contains s s.
Proof. exists [], []. by rewrite app_nil_r. Qed.

Lemma contains_prefixed (pre s x : jsstring) : contains s x -> contains (pre ++ s) x.
Proof.
  intros (a & b & ->). exists (pre ++ a), b. by rewrite <- app_assoc.
Qed.

Lemma contains_suffixed (s post x : jsstring) : contains s x -> contains (s ++ post) x.
Proof.
  intros (a & b & ->). exists a, (b ++ post). by rewrite <- !app_assoc.
Qed.

Lemma contains_join (sep : jsstring) (parts : list jsstring) (x : jsstring) :
  In x parts -> contains (join sep parts) x.
Proof.
  induction parts as [|p rest IH]; [intros [] |].
  intros [-> | Hin].
  - destruct rest; [apply contains_refl |].
    cbn [join]. apply contains_suffixed, contains_refl.
  - destruct rest as [|q rest']; [destruct Hin |].
    cbn [join]. apply contains_prefixed, contains_prefixed, IH, Hin.
Qed.

Create HintDb substr.
#[export] Hint Resolve contains_refl contains_prefixed contains_suffixed contains_join : substr.

(** ** The credential check *)

(** A credential is configured: the variable is set to a non-empty text. *)
Definition configured (env : environment) (key : jsstring) : Prop :=
  exists v, env !! key = Some v /\ v <> [].

Lemma env_missing_false (env : environment) (key : jsstring) :
  env_missing env key = false <-> configured env key.
Proof.
  unfold env_missing, configured. split.
  - destruct (env !! key) as [[|c v]|]; try discriminate. intros _. by eexists.
  - intros (v & -> & Hv). by destruct v.
Qed.

Lemma env_missing_true (env : environment) (key : jsstring) :
  env_missing env key = true <-> ~ configured env key.
Proof.
  rewrite <- env_missing_false. destruct (env_missing env key); split; congruence.
Qed.

Definition all_configured (env : environment) : Prop :=
  configured env (js "NEWSDATA_API_KEY") /\ configured env (js "GEMINI_API_KEY")
  /\ configured env (js "IMGFLIP_USERNAME") /\ configured env (js "IMGFLIP_PASSWORD").

Lemma missing_vars_nil (env : environment) :
  missing_vars env = [] <-> all_configured env.
Proof.
  unfold missing_vars, required, all_configured. cbn [List.filter].
  rewrite <- !env_missing_false.
  destruct (env_missing env (js "NEWSDATA_API_KEY")),
           (env_missing env (js "GEMINI_API_KEY")),
           (env_missing env (js "IMGFLIP_USERNAME")),
           (env_missing env (js "IMGFLIP_PASSWORD"));
    split; try discriminate; intuition congruence.
Qed.

Lemma validateEnvVars_ok (env : environment) :
  validateEnvVars env = Normal tt <-> all_configured env.
Proof.
  rewrite <- missing_vars_nil. unfold validateEnvVars, throw_Error.
  destruct (missing_vars env); cbn; split; congruence.
Qed.

Definition missing_message (env : environment) : jsstring :=
  js "Missing required environment variables: " ++ join (js ", ") (missing_vars env).

Lemma validateEnvVars_fails (env : environment) :
  ~ all_configured env -> validateEnvVars env = Throw (ErrorObj (missing_message env)).
Proof.
  rewrite <- missing_vars_nil. unfold validateEnvVars, missing_message.
  destruct (missing_vars env); [congruence | reflexivity].
Qed.

(** C9.  [validateEnvVars] returns (with nothing but the unit result: the
    environment is only read) exactly when the four credentials are all set
    and non-empty; otherwise it throws an [Error] whose message lists the
    missing keys, and every required key that is unset or empty occurs in
    that message. *)
Theorem validateEnvVars_names_every_missing_key (env : environment) :
  (validateEnvVars env = Normal tt <-> all_configured env)
  /\ (~ all_configured env ->
      validateEnvVars env = Throw (ErrorObj (missing_message env))
      /\ forall key, In key required -> ~ configured env key ->
           contains (missing_message env) key).
Proof.
  split; [apply validateEnvVars_ok |].
  intros Hnot. split; [by apply validateEnvVars_fails |].
  intros key Hreq Hkey. unfold missing_message.
  apply contains_prefixed, contains_join.
  unfold missing_vars. apply filter_In. split; [done |].
  by apply env_missing_true.
Qed.

(** ** Trimming *)

(** Empty, or white space only. *)
Definition blank (s : jsstring) : bool := forallb is_js_space s.

Lemma trimStart_blank (s : jsstring) : blank s = true -> trimStart s = [].
Proof.
  induction s as [|c s IH]; [done |]. cbn. intros [Hc Hs]%andb_prop.
  rewrite Hc. by apply IH.
Qed.

Lemma trimStart_head (s : jsstring) :
  trimStart s = [] \/ exists c t, trimStart s = c :: t /\ is_js_space c = false.
Proof.
  induction s as [|c s IH]; [by left |]. cbn.
  destruct (is_js_space c) eqn:Hc; [apply IH |]. right. by exists c, s.
Qed.

Lemma trimStart_nil_blank (s : jsstring) : trimStart s = [] -> blank s = true.
Proof.
  induction s as [|c s IH]; [done |]. cbn.
  destruct (is_js_space c); [apply IH | discriminate].
Qed.

Lemma blank_app (s t : jsstring) : blank (s ++ t) = blank s && blank t.
Proof. apply forallb_app. Qed.

Lemma blank_rev (s : jsstring) : blank (rev s) = blank s.
Proof.
  induction s as [|c s IH]; [done |]. cbn [rev]. rewrite blank_app, IH. cbn.
  rewrite andb_true_r. apply andb_comm.
Qed.

Lemma trim_nil_iff (s : jsstring) : trim s = [] <-> blank s = true.
Proof.
  unfold trim, trimEnd. split.
  - intros H. apply (f_equal (@rev N)) in H. rewrite rev_involutive in H. cbn in H.
    apply trimStart_nil_blank in H. rewrite blank_rev in H.
    destruct (trimStart_head s) as [Hs | (c & t & Hs & Hc)].
    + by apply trimStart_nil_blank.
    + rewrite Hs in H. cbn in H. by rewrite Hc in H.
  - intros H. by rewrite (trimStart_blank s H).
Qed.

(** ** Requests that are answered

    The first steps of every client: the request is answered, the status is
    a success, the body is JSON. *)
Ltac answered Hnet Hok Hjson :=
  unfold fetch; rewrite Hnet; cbn [bind]; rewrite Hok; cbn [negb bind];
  rewrite Hjson; cbn [bind].

(** ** The news query *)

(** The values a [URLSearchParams] object holds under [key]. *)
Definition param_values (key : jsstring) (params : list (jsstring * jsstring))
  : list jsstring :=
  List.map snd (List.filter (fun kv => bool_decide (fst kv = key)) params).

Lemma param_values_app (key : jsstring) (p q : list (jsstring * jsstring)) :
  param_values key (p ++ q) = param_values key p ++ param_values key q.
Proof. unfold param_values. by rewrite List.filter_app, List.map_app. Qed.

Lemma getIndianNewsByTopic_one_request (net net' : network) env topic :
  net (news_request env topic) = net' (news_request env topic) ->
  getIndianNewsByTopic net env topic = getIndianNewsByTopic net' env topic.
Proof. intros H. unfold getIndianNewsByTopic, fetch. by rewrite H. Qed.

(** The conversion on sample texts: a pair is kept, a surrogate on its own
    is replaced, at the end of the text too. *)
Example ToUSVString_pair :
  ToUSVString [97; 55357; 56832; 98]%N = [97; 55357; 56832; 98]%N.
Proof. reflexivity. Qed.

Example ToUSVString_lone_high : ToUSVString [97; 55296; 98]%N = [97; 65533; 98]%N.
Proof. reflexivity. Qed.

Example ToUSVString_lone_low : ToUSVString [56832; 55357]%N = [65533; 65533]%N.
Proof. reflexivity. Qed.

(** A text is well formed when each of its surrogate code units belongs to
    a pair: a high one (D800 to DBFF) followed by a low one (DC00 to
    DFFF). *)
Inductive well_formed : jsstring -> Prop :=
  | well_formed_nil : well_formed []
  | well_formed_unit (c : N) (s : jsstring) :
      (c < 55296 \/ 57343 < c)%N -> well_formed s -> well_formed (c :: s)
  | well_formed_pair (h l : N) (s : jsstring) :
      (55296 <= h <= 56319)%N -> (56320 <= l <= 57343)%N -> well_formed s ->
      well_formed (h :: l :: s).

Lemma is_high_surrogate_spec (c : N) :
  is_high_surrogate c = true <-> (55296 <= c <= 56319)%N.
Proof. unfold is_high_surrogate. by rewrite andb_true_iff, !N.leb_le. Qed.

Lemma is_low_surrogate_spec (c : N) :
  is_low_surrogate c = true <-> (56320 <= c <= 57343)%N.
Proof. unfold is_low_surrogate. by rewrite andb_true_iff, !N.leb_le. Qed.

Lemma not_surrogate (c : N) :
  (c < 55296 \/ 57343 < c)%N ->
  is_high_surrogate c = false /\ is_low_surrogate c = false.
Proof.
  intros Hc. split.
  - destruct (is_high_surrogate c) eqn:H; [| done].
    apply is_high_surrogate_spec in H. lia.
  - destruct (is_low_surrogate c) eqn:H; [| done].
    apply is_low_surrogate_spec in H. lia.
Qed.

(** The conversion leaves a well-formed text as it is. *)
Lemma ToUSVString_well_formed (s : jsstring) : well_formed s -> ToUSVString s = s.
Proof.
  induction 1 as [|c s Hc _ IH|h l s Hh Hl _ IH]; [done | |].
  - destruct (not_surrogate c Hc) as [Hhigh Hlow]. cbn [ToUSVString].
    by rewrite Hhigh, Hlow, IH.
  - apply is_high_surrogate_spec in Hh. apply is_low_surrogate_spec in Hl.
    cbn [ToUSVString]. by rewrite Hh, Hl, IH.
Qed.

(** A client asks the network exactly the request [r]: its result is the
    same for two networks that answer [r] alike, and there are two answers
    to [r] that it tells apart whatever the networks answer elsewhere.  A
    client that sends nothing, or sends another request, does not have the
    second property. *)
Definition asks_exactly {A : Type} (client : network -> completion A) (r : Request)
  : Prop :=
  (forall net net' : network, net r = net' r -> client net = client net')
  /\ exists o o' : fetch_outcome,
       forall net net' : network, net r = o -> net' r = o' -> client net <> client net'.

Lemma getIndianNewsByTopic_asks (env : environment) (topic : jsstring) :
  asks_exactly (fun net => getIndianNewsByTopic net env topic) (news_request env topic).
Proof.
  split; [intros net net'; apply getIndianNewsByTopic_one_request |].
  exists (Rejected NonError), (Rejected (ErrorObj [])).
  intros net net' Hnet Hnet'. unfold getIndianNewsByTopic, fetch.
  rewrite Hnet, Hnet'. cbn [bind try_catch throw_Error message_or_unknown].
  intros H. apply (f_equal (fun c => match c with
                                   | Throw (ErrorObj m) => length m
                                   | _ => 0%nat
                                   end)) in H.
  vm_compute in H. discriminate.
Qed.

(** The [q] parameter of the news query. *)
Lemma news_query_q (env : environment) (topic : jsstring) :
  param_values (js "q") (req_query (news_request env topic))
  = if blank topic then [] else [ToUSVString topic].
Proof.
  cbn [news_request req_query]. unfold news_params, append.
  destruct (trim topic) as [|c t] eqn:Htrim.
  - apply trim_nil_iff in Htrim. rewrite Htrim. reflexivity.
  - destruct (blank topic) eqn:Hb.
    + apply trim_nil_iff in Hb. congruence.
    + rewrite param_values_app. reflexivity.
Qed.

(** C6.  [getIndianNewsByTopic] asks the network exactly the news request.
    The query of that request carries no [q] parameter when the topic is
    empty or white space only, and exactly one otherwise: the topic with
    every surrogate on its own replaced by U+FFFD, which is the topic as
    given when the topic is well formed. *)
Theorem news_query_topic_filter (env : environment) (topic : jsstring) :
  let request := news_request env topic in
  let q := param_values (js "q") (req_query request) in
  asks_exactly (fun net => getIndianNewsByTopic net env topic) request
  /\ (blank topic = true -> q = [])
  /\ (blank topic = false -> q = [ToUSVString topic])
  /\ (blank topic = false -> well_formed topic -> q = [topic]).
Proof.
  intros request q. subst q request. rewrite news_query_q.
  split; [apply getIndianNewsByTopic_asks |].
  split; [by intros -> |]. split; [by intros -> |].
  intros -> Hwf. by rewrite ToUSVString_well_formed.
Qed.

(** ** Removing the code fences *)

(** No backtick occurs in the text. *)
Definition tick_free (s : jsstring) : bool :=
  forallb (fun c => negb (N.eqb c c_backtick)) s.

(** The text does not go on with a backtick or with the [j] of [json]. *)
Definition safe_head (s : jsstring) : bool :=
  match s with
  | c :: _ => negb (N.eqb c c_backtick) && negb (N.eqb c 106)
  | [] => true
  end.

Lemma space_not_tick (c : N) : is_js_space c = true -> N.eqb c c_backtick = false.
Proof.
  intros Hc. destruct (N.eqb_spec c c_backtick) as [-> |]; [| done].
  by vm_compute in Hc.
Qed.

Lemma space_not_j (c : N) : is_js_space c = true -> N.eqb c 106 = false.
Proof.
  intros Hc. destruct (N.eqb_spec c 106) as [-> |]; [| done].
  by vm_compute in Hc.
Qed.

Lemma blank_tick_free (w : jsstring) : blank w = true -> tick_free w = true.
Proof.
  induction w as [|c w IH]; [done |]. intros [Hc Hw]%andb_prop.
  change (tick_free (c :: w)) with (negb (N.eqb c c_backtick) && tick_free w).
  by rewrite (space_not_tick c Hc), IH.
Qed.

Lemma tick_free_app (s t : jsstring) : tick_free (s ++ t) = tick_free s && tick_free t.
Proof. apply forallb_app. Qed.

Lemma safe_head_blank_app (w x : jsstring) :
  blank w = true -> safe_head x = true -> safe_head (w ++ x) = true.
Proof.
  destruct w as [|c w]; [done |]. cbn. intros [Hc _]%andb_prop _.
  by rewrite (space_not_tick c Hc), (space_not_j c Hc).
Qed.

Section remove_all_facts.
Variable tail : jsstring.
Let pat := c_backtick :: tail.

(** Text without a backtick is copied. *)
Lemma remove_all_tick_free (w rest : jsstring) :
  tick_free w = true ->
  remove_all pat (w ++ rest) = w ++ remove_all pat rest.
Proof.
  unfold remove_all. induction w as [|c w IH]; [done |].
  cbn -[c_backtick]. intros [Hc Hw]%andb_prop.
  rewrite N.eqb_sym. apply negb_true_iff in Hc. rewrite Hc. cbn.
  by rewrite IH.
Qed.

Lemma starts_with_self (p rest : jsstring) : starts_with p (p ++ rest) = true.
Proof. induction p as [|c p IH]; [done |]. cbn. by rewrite N.eqb_refl. Qed.

Lemma remove_all_from_skip (l rest : jsstring) :
  remove_all_from pat (length l) (l ++ rest) = remove_all_from pat O rest.
Proof.
  induction l as [|c l IH]; cbn; [by destruct rest | apply IH].
Qed.

(** An occurrence of the pattern is dropped. *)
Lemma remove_all_match (rest : jsstring) :
  remove_all pat (pat ++ rest) = remove_all pat rest.
Proof.
  unfold remove_all, pat.
  change (remove_all_from (c_backtick :: tail) 0 ((c_backtick :: tail) ++ rest))
    with (if starts_with (c_backtick :: tail) ((c_backtick :: tail) ++ rest)
          then remove_all_from (c_backtick :: tail) (length tail) (tail ++ rest)
          else c_backtick :: remove_all_from (c_backtick :: tail) 0 (tail ++ rest)).
  rewrite starts_with_self. apply remove_all_from_skip.
Qed.
End remove_all_facts.

Lemma fence_code : fence = [96; 96; 96]%N.
Proof. reflexivity. Qed.

Lemma fence_json_code : fence_json = [96; 96; 96; 106; 115; 111; 110]%N.
Proof. reflexivity. Qed.

(** A plain fence is not an occurrence of the fence that names [json]. *)
Lemma remove_fence_json_plain (rest : jsstring) :
  safe_head rest = true ->
  remove_all fence_json (fence ++ rest) = fence ++ remove_all fence_json rest.
Proof.
  destruct rest as [|c r]; [reflexivity |].
  cbn [safe_head]. intros [Ht Hj]%andb_prop.
  apply negb_true_iff in Ht, Hj. rewrite N.eqb_sym in Ht, Hj.
  change c_backtick with 96%N in Ht.
  rewrite fence_json_code, fence_code. unfold remove_all.
  cbn -[N.eqb]. rewrite !N.eqb_refl, Ht, Hj. reflexivity.
Qed.

(** ** Trimming around a text that has no white space at its ends *)

Lemma trimStart_blank_app (w s : jsstring) :
  blank w = true -> trimStart (w ++ s) = trimStart s.
Proof.
  induction w as [|c w IH]; [done |]. cbn. intros [Hc Hw]%andb_prop.
  rewrite Hc. by apply IH.
Qed.

Lemma trim_padded (w1 core w2 : jsstring) :
  blank w1 = true -> blank w2 = true ->
  trimStart core = core -> trimStart (rev core) = rev core ->
  trim (w1 ++ core ++ w2) = core.
Proof.
  intros H1 H2 Hs He.
  destruct core as [|c core].
  { apply trim_nil_iff. by rewrite !blank_app, H1, H2. }
  unfold trim, trimEnd. rewrite trimStart_blank_app by done.
  assert (trimStart ((c :: core) ++ w2) = (c :: core) ++ w2) as ->.
  { cbn in *. destruct (is_js_space c) eqn:Hc; [| done].
    exfalso. apply (f_equal (@length N)) in Hs. cbn in Hs.
    assert (length (trimStart core) <= length core)%nat; [| lia].
    clear. induction core as [|d core IH]; cbn; [lia |].
    destruct (is_js_space d); cbn; lia. }
  rewrite rev_app_distr, trimStart_blank_app by (by rewrite blank_rev).
  by rewrite He, rev_involutive.
Qed.

(** ** The caption parser *)

(** The text [parseMemeCaption] hands to [JSON.parse]. *)
Definition cleaned (s : jsstring) : jsstring :=
  trim (remove_all fence (remove_all fence_json s)).

Lemma parseMemeCaption_never_throws (caption : value) :
  exists r, parseMemeCaption caption = Normal r.
Proof.
  unfold parseMemeCaption, try_catch.
  destruct (parseMemeCaption_body caption); eauto.
Qed.

Lemma parseMemeCaption_string (s : jsstring) :
  parseMemeCaption (VStr s)
  = try_catch (json <- JSON_parse (cleaned s) ;; caption_of_json json)
      (fun _ => Normal None).
Proof. reflexivity. Qed.

(** Reading a property of a parsed value that is not [null]. *)
Lemma get_prop_cases (v : value) :
  v = VNull \/ v = VUndefined
  \/ forall key, get_prop v key = Normal (get_prop_opt v key).
Proof. destruct v; auto. Qed.

(** A required field that is absent or falsy gives no caption. *)
Lemma caption_of_json_missing (json : value) :
  falsy (get_prop_opt json (js "image")) = true
  \/ falsy (get_prop_opt json (js "topText")) = true
  \/ falsy (get_prop_opt json (js "bottomText")) = true ->
  try_catch (caption_of_json json) (fun _ => Normal None) = Normal None.
Proof.
  intros H.
  destruct (get_prop_cases json) as [-> | [-> | Hget]]; [reflexivity.. |].
  unfold caption_of_json. rewrite !Hget. cbn [bind].
  destruct (falsy (get_prop_opt json (js "image"))); [done |].
  destruct (falsy (get_prop_opt json (js "topText"))); [done |].
  destruct (falsy (get_prop_opt json (js "bottomText"))); [done |].
  destruct H as [H | [H | H]]; discriminate.
Qed.

(** An [image] that [Number] turns into [NaN] gives no caption. *)
Lemma caption_of_json_NaN (json : value) (n : number) :
  ToNumber (get_prop_opt json (js "image")) = Normal n -> is_NaN n = true ->
  try_catch (caption_of_json json) (fun _ => Normal None) = Normal None.
Proof.
  intros Hn Hnan.
  destruct (get_prop_cases json) as [-> | [-> | Hget]]; [reflexivity.. |].
  unfold caption_of_json. rewrite !Hget. cbn [bind].
  destruct (falsy (get_prop_opt json (js "image"))); [done |].
  destruct (falsy (get_prop_opt json (js "topText"))); [done |].
  destruct (falsy (get_prop_opt json (js "bottomText"))); [done |].
  rewrite Hn. cbn [bind]. by rewrite Hnan.
Qed.

(** C2.  On every string [parseMemeCaption] returns normally, with a caption
    or with [null] (here [None]); it returns [null] when the cleaned text is
    not JSON, when one of [image], [topText], [bottomText] is absent from the
    parsed value or falsy, and when [Number(json.image)] is [NaN]. *)
Theorem parseMemeCaption_total (s : jsstring) :
  (exists r : option MemeCaption, parseMemeCaption (VStr s) = Normal r)
  /\ (forall e, JSON_parse (cleaned s) = Throw e ->
        parseMemeCaption (VStr s) = Normal None)
  /\ (forall json, JSON_parse (cleaned s) = Normal json ->
        falsy (get_prop_opt json (js "image")) = true
        \/ falsy (get_prop_opt json (js "topText")) = true
        \/ falsy (get_prop_opt json (js "bottomText")) = true ->
        parseMemeCaption (VStr s) = Normal None)
  /\ (forall json n, JSON_parse (cleaned s) = Normal json ->
        ToNumber (get_prop_opt json (js "image")) = Normal n -> is_NaN n = true ->
        parseMemeCaption (VStr s) = Normal None).
Proof.
  split; [apply parseMemeCaption_never_throws |].
  rewrite parseMemeCaption_string. repeat split.
  - intros e ->. reflexivity.
  - intros json -> H. cbn [bind]. by apply caption_of_json_missing.
  - intros json n -> Hn Hnan. cbn [bind]. by apply (caption_of_json_NaN json n).
Qed.

(** The scenarios of the specification: prose, a missing [image], an
    [image] that is not a number, an empty text, a zero [image]. *)
Example parseMemeCaption_prose :
  parseMemeCaption (VStr (js "Sure! Here is a funny meme about cricket.")) = Normal None.
Proof. vm_compute. reflexivity. Qed.

Example parseMemeCaption_no_image :
  parseMemeCaption (VStr (jsq "{'topText': 'A', 'bottomText': 'B'}")) = Normal None.
Proof. vm_compute. reflexivity. Qed.

Example parseMemeCaption_image_not_a_number :
  parseMemeCaption (VStr (jsq "{'image': 'drake', 'topText': 'A', 'bottomText': 'B'}"))
  = Normal None.
Proof. vm_compute. reflexivity. Qed.

Example parseMemeCaption_empty_text :
  parseMemeCaption (VStr (jsq "{'image': 101, 'topText': '', 'bottomText': 'B'}"))
  = Normal None.
Proof. vm_compute. reflexivity. Qed.

Example parseMemeCaption_zero_image :
  parseMemeCaption (VStr (jsq "{'image': 0, 'topText': 'A', 'bottomText': 'B'}"))
  = Normal None.
Proof. vm_compute. reflexivity. Qed.

Example parseMemeCaption_null_document :
  parseMemeCaption (VStr (js "null")) = Normal None.
Proof. vm_compute. reflexivity. Qed.

Example parseMemeCaption_numeric_string_image :
  parseMemeCaption (VStr (jsq "{'image': '87', 'topText': 7, 'bottomText': [1, 'b']}"))
  = Normal (Some {| image := number_of_N 87; topText := js "7"; bottomText := js "1,b" |}).
Proof. vm_compute. reflexivity. Qed.

(** The object of the specification and the caption it stands for. *)
Definition sample_object : jsstring :=
  jsq "{'image': 101, 'topText': 'A', 'bottomText': 'B'}".

Definition sample_caption : MemeCaption :=
  {| image := number_of_N 101; topText := js "A"; bottomText := js "B" |}.

Lemma parseMemeCaption_cleaned_sample (s : jsstring) :
  cleaned s = sample_object -> parseMemeCaption (VStr s) = Normal (Some sample_caption).
Proof. intros H. rewrite parseMemeCaption_string, H. vm_compute. reflexivity. Qed.

Lemma remove_json_copy (w rest : jsstring) :
  tick_free w = true ->
  remove_all fence_json (w ++ rest) = w ++ remove_all fence_json rest.
Proof. apply (remove_all_tick_free [96; 96; 106; 115; 111; 110]%N). Qed.

Lemma remove_fence_copy (w rest : jsstring) :
  tick_free w = true -> remove_all fence (w ++ rest) = w ++ remove_all fence rest.
Proof. apply (remove_all_tick_free [96; 96]%N). Qed.

Lemma remove_json_drop (rest : jsstring) :
  remove_all fence_json (fence_json ++ rest) = remove_all fence_json rest.
Proof. apply (remove_all_match [96; 96; 106; 115; 111; 110]%N). Qed.

Lemma remove_fence_drop (rest : jsstring) :
  remove_all fence (fence ++ rest) = remove_all fence rest.
Proof. apply (remove_all_match [96; 96]%N). Qed.

Lemma remove_json_blank (w : jsstring) : blank w = true -> remove_all fence_json w = w.
Proof.
  intros H. rewrite <- (app_nil_r w) at 1.
  rewrite remove_json_copy by (by apply blank_tick_free). by rewrite app_nil_r.
Qed.

Lemma remove_fence_blank (w : jsstring) : blank w = true -> remove_all fence w = w.
Proof.
  intros H. rewrite <- (app_nil_r w) at 1.
  rewrite remove_fence_copy by (by apply blank_tick_free). by rewrite app_nil_r.
Qed.

Lemma sample_object_tick_free : tick_free sample_object = true.
Proof. reflexivity. Qed.

Lemma sample_object_trimmed :
  trimStart sample_object = sample_object
  /\ trimStart (rev sample_object) = rev sample_object.
Proof. split; reflexivity. Qed.

(** The fences the model may put around its answer: none, a plain one, or
    one that names [json] in front; none or a plain one behind. *)
Definition openers : list jsstring := [[]; fence; fence_json].
Definition closers : list jsstring := [[]; fence].

Lemma cleaned_fenced_sample (opener closer w1 w2 w3 w4 : jsstring) :
  In opener openers -> In closer closers ->
  blank w1 = true -> blank w2 = true -> blank w3 = true -> blank w4 = true ->
  cleaned (w1 ++ opener ++ w2 ++ sample_object ++ w3 ++ closer ++ w4) = sample_object.
Proof.
  intros Ho Hc H1 H2 H3 H4. unfold cleaned.
  pose proof (blank_tick_free _ H1) as T1. pose proof (blank_tick_free _ H2) as T2.
  pose proof (blank_tick_free _ H3) as T3. pose proof (blank_tick_free _ H4) as T4.
  pose proof sample_object_tick_free as To.
  assert (remove_all fence (remove_all fence_json
            (w1 ++ opener ++ w2 ++ sample_object ++ w3 ++ closer ++ w4))
          = (w1 ++ w2) ++ sample_object ++ (w3 ++ w4)) as ->.
  { assert (safe_head (w2 ++ sample_object ++ w3 ++ closer ++ w4) = true) as Hsafe.
    { by apply safe_head_blank_app. }
    assert (safe_head w4 = true) as Hsafe4.
    { rewrite <- (app_nil_r w4). by apply safe_head_blank_app. }
    assert (remove_all fence_json (closer ++ w4) = closer ++ w4) as Hclose1.
    { destruct Hc as [<- | [<- | []]]; cbn [app].
      - by apply remove_json_blank.
      - rewrite remove_fence_json_plain by done. by rewrite remove_json_blank. }
    assert (remove_all fence (closer ++ w4) = w4) as Hclose2.
    { destruct Hc as [<- | [<- | []]]; cbn [app].
      - by apply remove_fence_blank.
      - rewrite remove_fence_drop. by apply remove_fence_blank. }
    rewrite remove_json_copy by done.
    assert (remove_all fence (w1 ++ remove_all fence_json
              (opener ++ w2 ++ sample_object ++ w3 ++ closer ++ w4))
            = w1 ++ remove_all fence (w2 ++ sample_object ++ w3 ++ closer ++ w4)) as ->.
    { rewrite remove_fence_copy by done. f_equal.
      destruct Ho as [<- | [<- | [<- | []]]]; cbn [app].
      - by rewrite !remove_json_copy, Hclose1 by done.
      - rewrite remove_fence_json_plain by done.
        rewrite !remove_json_copy, Hclose1 by done. apply remove_fence_drop.
      - rewrite remove_json_drop. by rewrite !remove_json_copy, Hclose1 by done. }
    rewrite !remove_fence_copy, Hclose2 by done.
    by rewrite <- !app_assoc. }
  destruct sample_object_trimmed as [Hs He].
  apply trim_padded; [by rewrite blank_app, H1, H2 | by rewrite blank_app, H3, H4 | done..].
Qed.

(** C5.  The object of the specification, alone or wrapped in code fences
    (an opening fence with or without [json], a closing fence), with any
    white space around the object and around the fences, is cleaned to the
    object itself and parsed to the caption with image 101, top text [A] and
    bottom text [B]. *)
Theorem parseMemeCaption_fenced_sample (opener closer w1 w2 w3 w4 : jsstring) :
  In opener openers -> In closer closers ->
  blank w1 = true -> blank w2 = true -> blank w3 = true -> blank w4 = true ->
  let raw := w1 ++ opener ++ w2 ++ sample_object ++ w3 ++ closer ++ w4 in
  cleaned raw = sample_object
  /\ parseMemeCaption (VStr raw) = Normal (Some sample_caption).
Proof.
  intros Ho Hc H1 H2 H3 H4 raw.
  assert (cleaned raw = sample_object) as Hraw by (by apply cleaned_fenced_sample).
  split; [done |]. by apply parseMemeCaption_cleaned_sample.
Qed.

(** A fenced answer as the model gives it. *)
Lemma parseMemeCaption_fenced_sample_witness :
  parseMemeCaption
    (VStr (js "```json" ++ nl ++ sample_object ++ nl ++ js "```" ++ nl))
  = Normal (Some sample_caption).
Proof.
  refine (proj2 (parseMemeCaption_fenced_sample fence_json fence [] nl nl nl _ _ _ _ _ _));
    first [reflexivity | cbn; tauto].
Defined.

(** ** Exceptions are [Error] instances *)

(** Induction on values that reaches the items of an array. *)
Section value_induction.
Variable P : value -> Prop.
Hypothesis P_undefined : P VUndefined.
Hypothesis P_null : P VNull.
Hypothesis P_bool : forall b, P (VBool b).
Hypothesis P_num : forall n, P (VNum n).
Hypothesis P_str : forall s, P (VStr s).
Hypothesis P_arr : forall items, Forall P items -> P (VArr items).
Hypothesis P_obj : forall props, P (VObj props).

Fixpoint value_items_ind (v : value) : P v :=
  match v with
  | VUndefined => P_undefined
  | VNull => P_null
  | VBool b => P_bool b
  | VNum n => P_num n
  | VStr s => P_str s
  | VArr items =>
      P_arr items
        ((fix go (l : list value) : Forall P l :=
            match l with
            | [] => List.Forall_nil P
            | x :: rest => List.Forall_cons P x rest (value_items_ind x) (go rest)
            end) items)
  | VObj props => P_obj props
  end.
End value_induction.

Definition is_Error (e : thrown) : Prop := exists m, e = ErrorObj m.

Lemma join_with_throws (conv : value -> completion jsstring) (sep : jsstring)
    (items : list value) (e : thrown) :
  Forall (fun x => forall e', conv x = Throw e' -> is_Error e') items ->
  join_with conv sep items = Throw e -> is_Error e.
Proof.
  intros Hall. revert e. induction Hall as [|x rest Hx Hrest IH]; intros e; [done |].
  assert (forall e', match x with
                     | VUndefined | VNull => Normal []
                     | _ => conv x
                     end = Throw e' -> is_Error e') as Helem.
  { intros e'. destruct x; try done; apply Hx. }
  cbn [join_with]. destruct rest as [|y rest'].
  - apply Helem.
  - destruct (match x with VUndefined | VNull => Normal [] | _ => conv x end) eqn:Hc;
      cbn [bind].
    + destruct (join_with conv sep (y :: rest')) eqn:Hj; cbn [bind]; [done |].
      intros [= <-]. by apply IH.
    + intros [= <-]. by apply Helem.
Qed.

Lemma ToString_throws (v : value) (e : thrown) : ToString v = Throw e -> is_Error e.
Proof.
  revert e. induction v using value_items_ind; intros e; try done.
  - cbn [ToString]. by apply join_with_throws.
  - cbn [ToString]. destruct (lookup_prop _ _); [| done].
    intros [= <-]. by eexists.
Qed.

Lemma Array_join_throws sep items e : Array_join sep items = Throw e -> is_Error e.
Proof.
  apply join_with_throws, Forall_forall. intros x _ e'. apply ToString_throws.
Qed.

(** A [catch] clause that throws [new Error(...)] lets only [Error]s out. *)
Lemma rethrown_is_Error {A} (body : completion A) (pre : jsstring) (e : thrown) :
  try_catch body (fun err => throw_Error (pre ++ message_or_unknown err)) = Throw e ->
  is_Error e.
Proof. destruct body; cbn; [done |]. intros [= <-]. by eexists. Qed.

Lemma getIndianNewsByTopic_throws net env topic e :
  getIndianNewsByTopic net env topic = Throw e -> is_Error e.
Proof. apply rethrown_is_Error. Qed.

Lemma fetchImgflipTemplates_throws net e :
  fetchImgflipTemplates net = Throw e -> is_Error e.
Proof. apply rethrown_is_Error. Qed.

Lemma generateMeme_throws net env t a b e :
  generateMeme net env t a b = Throw e -> is_Error e.
Proof. apply rethrown_is_Error. Qed.

Lemma generateCaption_throws srv net env title description ids e :
  generateCaption srv net env title description ids = Throw e -> is_Error e.
Proof.
  unfold generateCaption.
  destruct (ToString title) eqn:Ht; cbn [bind];
    [| intros [= <-]; by eapply ToString_throws].
  destruct (ToString description) eqn:Hd; cbn [bind];
    [| intros [= <-]; by eapply ToString_throws].
  destruct (Array_join (js ", ") ids) eqn:Hj; cbn [bind];
    [| intros [= <-]; by eapply Array_join_throws].
  apply rethrown_is_Error.
Qed.

Lemma get_prop_throws v key e : get_prop v key = Throw e -> is_Error e.
Proof. destruct v; cbn; try done; intros [= <-]; by eexists. Qed.

Lemma article_incomplete_throws article e :
  article_incomplete article = Throw e -> is_Error e.
Proof.
  unfold article_incomplete. destruct (falsy article); [done |].
  destruct (get_prop article (js "title")) eqn:Ht; cbn [bind];
    [| intros [= <-]; by eapply get_prop_throws].
  destruct (falsy a); [done |].
  destruct (get_prop article (js "description")) eqn:Hd; cbn [bind];
    [done | intros [= <-]; by eapply get_prop_throws].
Qed.

Lemma workflow_throws srv net env topic idx e :
  workflow srv net env topic idx = Throw e -> is_Error e.
Proof.
  unfold workflow.
  destruct (getIndianNewsByTopic net env topic) as [news|] eqn:Hn; cbn [bind];
    [| intros [= <-]; by eapply getIndianNewsByTopic_throws].
  destruct (Nat.eqb (length news) 0); [intros [= <-]; by eexists |].
  destruct (article_incomplete _) as [inc|] eqn:Hi; cbn [bind];
    [| intros [= <-]; by eapply article_incomplete_throws].
  destruct inc; [intros [= <-]; by eexists |].
  destruct (fetchImgflipTemplates net) as [ts|] eqn:Hf; cbn [bind];
    [| intros [= <-]; by eapply fetchImgflipTemplates_throws].
  destruct (get_prop _ (js "title")) as [t|] eqn:Ht; cbn [bind];
    [| intros [= <-]; by eapply get_prop_throws].
  destruct (get_prop _ (js "description")) as [d|] eqn:Hd; cbn [bind];
    [| intros [= <-]; by eapply get_prop_throws].
  destruct (generateCaption _ _ _ _ _ _) as [[c|]|] eqn:Hc; cbn [bind];
    [| intros [= <-]; by eexists | intros [= <-]; by eapply generateCaption_throws].
  destruct (generateMeme _ _ _ _ _) eqn:Hm; cbn [bind];
    [done | intros [= <-]; by eapply generateMeme_throws].
Qed.

(** ** The workflow *)

(** [handleGenerateNewsMeme] of either file. *)
Definition handleGenerateNewsMeme (srv : server)
  : network -> environment -> option NewsMemeArgs -> completion payload :=
  match srv with
  | index_ts => IndexTs.handleGenerateNewsMeme
  | app_ts => AppTs.handleGenerateNewsMeme
  end.

(** Once the credentials are there, the handler is its [try] block with the
    wrapping [catch]. *)
Lemma handleGenerateNewsMeme_configured srv net env args :
  validateEnvVars env = Normal tt ->
  handleGenerateNewsMeme srv net env args
  = try_catch
      (workflow srv net env (topic_or_empty (args ≫= arg_topic))
         (index_or_zero (args ≫= arg_articleIndex)))
      (fun error => throw_Error (workflow_prefix ++ message_or_unknown error)).
Proof.
  intros Henv. destruct srv; cbn [handleGenerateNewsMeme]; [| reflexivity].
  unfold IndexTs.handleGenerateNewsMeme. by rewrite Henv.
Qed.

Lemma workflow_failure_wrapped srv net env args (m : jsstring) :
  validateEnvVars env = Normal tt ->
  workflow srv net env (topic_or_empty (args ≫= arg_topic))
    (index_or_zero (args ≫= arg_articleIndex)) = Throw (ErrorObj m) ->
  handleGenerateNewsMeme srv net env args = Throw (ErrorObj (workflow_prefix ++ m)).
Proof.
  intros Henv Hw. rewrite handleGenerateNewsMeme_configured by done. by rewrite Hw.
Qed.

(** The number names an element of the list. *)
Definition in_bounds (news : list value) (n : number) : bool :=
  match integer_of_number n with
  | Some i => (0 <=? i) && (i <? Z.of_nat (length news))
  | None => false
  end.

Lemma element_at_out_of_bounds (news : list value) (n : number) :
  in_bounds news n = false -> element_at news n = VUndefined.
Proof.
  unfold in_bounds, element_at. destruct (integer_of_number n) as [i|]; [| done].
  by intros ->.
Qed.

Lemma index_or_zero_out_of_bounds (news : list value) (n : number) :
  news <> [] -> is_NaN n = false -> in_bounds news n = false ->
  index_or_zero (Some n) = n.
Proof.
  intros Hne Hnan Hout. unfold index_or_zero, no_number. rewrite Hnan.
  destruct n; try done. exfalso.
  unfold in_bounds in Hout. cbn in Hout. destruct news; [done |].
  apply Z.ltb_ge in Hout. cbn [length] in Hout. lia.
Qed.

Definition missing_article : jsstring :=
  js "Selected article missing title or description".

(** C3.  With a non-empty list of fetched articles and an article index that
    is a number but names no element of the list (negative, fractional,
    infinite, or at least the length), [handleGenerateNewsMeme] of either
    file throws the [Error] of the missing article, wrapped by the workflow
    prefix: its message contains [Selected article missing title or
    description].  The index is a JSON number, hence never [NaN]. *)
Theorem out_of_range_index_reports_missing_article
    (srv : server) (net : network) (env : environment) (a : NewsMemeArgs)
    (n : number) (news : list value) :
  validateEnvVars env = Normal tt ->
  getIndianNewsByTopic net env (topic_or_empty (arg_topic a)) = Normal news ->
  news <> [] ->
  arg_articleIndex a = Some n -> is_NaN n = false -> in_bounds news n = false ->
  handleGenerateNewsMeme srv net env (Some a)
    = Throw (ErrorObj (workflow_prefix ++ missing_article))
  /\ contains (workflow_prefix ++ missing_article) missing_article.
Proof.
  intros Henv Hnews Hne Hidx Hnan Hout.
  split; [| auto with substr].
  apply workflow_failure_wrapped; [done |].
  cbn [mbind option_bind]. rewrite Hidx.
  rewrite (index_or_zero_out_of_bounds news) by done.
  unfold workflow. rewrite Hnews. cbn [bind].
  destruct news as [|x news]; [done |]. cbn [length Nat.eqb].
  by rewrite element_at_out_of_bounds.
Qed.

(** A concrete world: credentials, and a network that answers the news
    query with three articles, the catalog query with three templates, the
    model with a fenced object choosing template 87, and the renderer with
    the address of the image. *)
Definition sample_env : environment :=
  <[js "NEWSDATA_API_KEY" := js "news-key"]>
    (<[js "GEMINI_API_KEY" := js "model-key"]>
       (<[js "IMGFLIP_USERNAME" := js "user"]>
          (<[js "IMGFLIP_PASSWORD" := js "secret"]> ∅))).

Definition respond (text : jsstring) : fetch_outcome :=
  Resolved {| status := 200; statusText := js "OK"; body := text |}.

Definition sample_net : network := fun req =>
  if decide (req_url req = js "https://newsdata.io/api/1/latest") then
    respond (jsq "{'status': 'success', 'totalResults': 3, 'results': [{'title': 'India win the toss', 'description': 'They bat first', 'link': 'https://example.org/1'}, {'title': 'Rain stops play', 'description': 'Covers are on'}, {'title': 'Series level', 'description': 'Decider on Sunday'}]}")
  else if decide (req_url req = js "https://api.imgflip.com/get_memes") then
    respond (jsq "{'success': true, 'data': {'memes': [{'id': '181913649', 'name': 'Drake Hotline Bling', 'box_count': 2}, {'id': '87', 'name': 'Two Buttons', 'box_count': 3}, {'id': '112126428', 'name': 'Distracted Boyfriend', 'box_count': 3}]}}")
  else if decide (req_url req = js "https://api.imgflip.com/caption_image") then
    respond (jsq "{'success': true, 'data': {'url': 'https://i.imgflip.com/abc.jpg', 'page_url': 'https://imgflip.com/i/abc'}}")
  else
    respond (jsq "{'candidates': [{'content': {'parts': [{'text': '```json\n{\'image\': 87, \'topText\': \'Toss won\', \'bottomText\': \'Match lost\'}\n```'}], 'role': 'model'}}]}").


(** The end-to-end scenario of the specification. *)
Example workflow_end_to_end (srv : server) :
  handleGenerateNewsMeme srv sample_net sample_env
    (Some {| arg_topic := Some (js "cricket"); arg_articleIndex := Some (S754_zero false) |})
  = Normal
      (NewsMemePayload (VStr (js "India win the toss")) (VStr (js "They bat first"))
         {| image := number_of_N 87; topText := js "Toss won"; bottomText := js "Match lost" |}
         (VStr (js "https://i.imgflip.com/abc.jpg"))).
Proof. destruct srv; vm_compute; reflexivity. Qed.

Lemma out_of_range_index_reports_missing_article_witness :
  handleGenerateNewsMeme index_ts sample_net sample_env
    (Some {| arg_topic := Some (js "cricket"); arg_articleIndex := Some (number_of_N 3) |})
  = Throw (ErrorObj (workflow_prefix ++ missing_article)).
Proof.
  refine (proj1 (out_of_range_index_reports_missing_article index_ts sample_net sample_env
                   {| arg_topic := Some (js "cricket");
                      arg_articleIndex := Some (number_of_N 3) |}
                   (number_of_N 3)
                   _ _ _ _ _ _ _)).
  - vm_compute. reflexivity.
  - vm_compute. reflexivity.
  - discriminate.
  - reflexivity.
  - reflexivity.
  - vm_compute. reflexivity.
Defined.

(** The article the workflow selects has a title and a description. *)
Definition complete_article (article : value) : Prop :=
  article_incomplete article = Normal false.

Lemma complete_article_fields (article : value) :
  complete_article article ->
  get_prop article (js "title") = Normal (get_prop_opt article (js "title"))
  /\ get_prop article (js "description")
     = Normal (get_prop_opt article (js "description")).
Proof.
  unfold complete_article, article_incomplete.
  destruct (get_prop_cases article) as [-> | [-> | Hget]]; [done.. |].
  by rewrite !Hget.
Qed.

(** The workflow up to the call of [generateCaption]. *)
Lemma workflow_after_templates srv net env topic idx news templates :
  getIndianNewsByTopic net env topic = Normal news -> news <> [] ->
  complete_article (element_at news idx) ->
  fetchImgflipTemplates net = Normal templates ->
  let article := element_at news idx in
  let title := get_prop_opt article (js "title") in
  let description := get_prop_opt article (js "description") in
  workflow srv net env topic idx
  = (caption <- generateCaption srv net env title description (List.map id templates) ;;
     match caption with
     | None => throw_Error (js "Failed to generate meme caption")
     | Some c =>
         memeUrl <- generateMeme net env (image c) (topText c) (bottomText c) ;;
         Normal (NewsMemePayload title description c memeUrl)
     end).
Proof.
  intros Hnews Hne Hart Htem. unfold workflow. rewrite Hnews. cbn [bind].
  destruct news as [|x news']; [done |]. cbn [length Nat.eqb].
  rewrite Hart. cbn [bind]. rewrite Htem. cbn [bind].
  destruct (complete_article_fields _ Hart) as [-> ->]. reflexivity.
Qed.

Definition no_articles : jsstring := js "No news articles found".
Definition no_caption : jsstring := js "Failed to generate meme caption".

(** C4.  With the credentials in place, whatever fails inside the workflow
    is an [Error], and the handler of either file throws a new [Error] whose
    message is [Failed to generate news meme: ] followed by the message of
    the inner one;
    the failure of each inner step (news, catalog, caption, rendering) is
    such a failure; the handler returns a result only when the workflow ran
    to its end, and that result holds the article, the caption and the
    address together; an empty list of articles and an absent caption give
    the messages [No news articles found] and [Failed to generate meme
    caption] after the prefix. *)
Theorem workflow_failures_are_wrapped
    (srv : server) (net : network) (env : environment) (args : option NewsMemeArgs) :
  validateEnvVars env = Normal tt ->
  let topic := topic_or_empty (args ≫= arg_topic) in
  let idx := index_or_zero (args ≫= arg_articleIndex) in
  let inner := workflow srv net env topic idx in
  let outer := handleGenerateNewsMeme srv net env args in
  let prefix := js "Failed to generate news meme: " in
  (forall e, inner = Throw e ->
     exists m, e = ErrorObj m
       /\ outer = Throw (ErrorObj (prefix ++ m))
       /\ contains (prefix ++ m) m)
  /\ (forall e, getIndianNewsByTopic net env topic = Throw e -> inner = Throw e)
  /\ (forall news, getIndianNewsByTopic net env topic = Normal news -> news <> [] ->
      complete_article (element_at news idx) ->
      let title := get_prop_opt (element_at news idx) (js "title") in
      let description := get_prop_opt (element_at news idx) (js "description") in
      (forall e, fetchImgflipTemplates net = Throw e -> inner = Throw e)
      /\ (forall templates, fetchImgflipTemplates net = Normal templates ->
          let ids := List.map id templates in
          (forall e, generateCaption srv net env title description ids = Throw e ->
             inner = Throw e)
          /\ (generateCaption srv net env title description ids = Normal None ->
              outer = Throw (ErrorObj (prefix ++ no_caption))
              /\ contains (prefix ++ no_caption) no_caption)
          /\ (forall c e,
                generateCaption srv net env title description ids = Normal (Some c) ->
                generateMeme net env (image c) (topText c) (bottomText c) = Throw e ->
                inner = Throw e)))
  /\ (getIndianNewsByTopic net env topic = Normal [] ->
      outer = Throw (ErrorObj (prefix ++ no_articles))
      /\ contains (prefix ++ no_articles) no_articles)
  /\ (forall p, outer = Normal p ->
      inner = Normal p
      /\ exists title description caption memeUrl,
           p = NewsMemePayload title description caption memeUrl).
Proof.
  intros Henv topic idx inner outer prefix.
  change prefix with workflow_prefix. clear prefix.
  assert (outer = try_catch inner
            (fun error => throw_Error (workflow_prefix ++ message_or_unknown error)))
    as Houter by (by apply handleGenerateNewsMeme_configured).
  assert (forall m, inner = Throw (ErrorObj m) ->
            outer = Throw (ErrorObj (workflow_prefix ++ m))) as Hwrap.
  { intros m Hm. by rewrite Houter, Hm. }
  split; [| split; [| split; [| split]]].
  - intros e He. destruct (workflow_throws _ _ _ _ _ _ He) as [m ->].
    exists m. repeat split; [by apply Hwrap | auto with substr].
  - intros e He. unfold inner, workflow. by rewrite He.
  - intros news Hnews Hne Hart title description. split.
    + intros e He. unfold inner, workflow. rewrite Hnews. cbn [bind].
      destruct news; [done |]. cbn [length Nat.eqb]. rewrite Hart. cbn [bind].
      by rewrite He.
    + intros templates Htem ids.
      assert (inner
              = (caption <- generateCaption srv net env title description ids ;;
                 match caption with
                 | None => throw_Error (js "Failed to generate meme caption")
                 | Some c =>
                     memeUrl <- generateMeme net env (image c) (topText c) (bottomText c) ;;
                     Normal (NewsMemePayload title description c memeUrl)
                 end)) as Hinner
        by (by apply workflow_after_templates).
      split; [| split].
      * intros e He. by rewrite Hinner, He.
      * intros Hnone. split; [| auto with substr].
        apply Hwrap. by rewrite Hinner, Hnone.
      * intros c e Hc He. rewrite Hinner, Hc. cbn [bind]. by rewrite He.
  - intros Hnews. split; [| auto with substr].
    apply Hwrap. unfold inner, workflow. by rewrite Hnews.
  - intros p Hp. rewrite Houter in Hp. destruct inner as [q|] eqn:Hin; [| done].
    injection Hp as ->. split; [done |]. clear Houter Hwrap.
    unfold inner, workflow in Hin.
    repeat match type of Hin with
           | bind ?c _ = _ => destruct c; cbn [bind] in Hin; try done
           | (if ?b then _ else _) = _ => destruct b; try done
           | match ?c with _ => _ end = _ => destruct c; try done
           end.
    injection Hin as <-. by eexists _, _, _, _.
Qed.

Lemma workflow_failures_are_wrapped_witness :
  handleGenerateNewsMeme app_ts (fun _ => respond (jsq "{'results': []}")) sample_env None
  = Throw (ErrorObj (js "Failed to generate news meme: No news articles found")).
Proof.
  refine (proj1 (proj1 (proj2 (proj2 (proj2
            (workflow_failures_are_wrapped app_ts (fun _ => respond (jsq "{'results': []}"))
               sample_env None _)))) _)).
  - vm_compute. reflexivity.
  - vm_compute. reflexivity.
Defined.

(** ** The template catalog *)

(** The part of a catalog entry that is kept. *)
Definition entry_of (e : value) : ImgflipTemplate :=
  {| id := get_prop_opt e (js "id"); name := get_prop_opt e (js "name") |}.

(** An entry that can be destructured: anything but [null] and [undefined]. *)
Definition destructurable (e : value) : Prop := e <> VNull /\ e <> VUndefined.

Lemma pick_id_name_entry (e : value) :
  destructurable e -> pick_id_name e = Normal (entry_of e).
Proof. intros [Hn Hu]. by destruct e. Qed.

Lemma map_throwing_entries (l : list value) :
  Forall destructurable l -> map_throwing pick_id_name l = Normal (List.map entry_of l).
Proof.
  induction 1 as [|e l He Hl IH]; [done |].
  cbn [map_throwing List.map]. rewrite (pick_id_name_entry e He), IH. reflexivity.
Qed.

Lemma truthy_field_object (v : value) (key : jsstring) :
  ToBoolean (get_prop_opt v key) = true ->
  forall k, get_prop v k = Normal (get_prop_opt v k).
Proof. by destruct v. Qed.

Lemma array_field_object (v : value) (key : jsstring) (items : list value) :
  get_prop_opt v key = VArr items ->
  forall k, get_prop v k = Normal (get_prop_opt v k).
Proof. by destruct v. Qed.

(** C8.  When the catalog request is answered with a success status and a
    body whose [success] is truthy and whose [data.memes] is an array of
    entries, [fetchImgflipTemplates] returns the first 100 entries of that
    array (all of them if there are fewer), in their order, each as the
    record of its [id] and [name]. *)
Theorem fetchImgflipTemplates_first_100
    (net : network) (res : Response) (json : value) (items : list value) :
  net templates_request = Resolved res -> ok res = true ->
  response_json res = Normal json ->
  ToBoolean (get_prop_opt json (js "success")) = true ->
  get_prop_opt (get_prop_opt json (js "data")) (js "memes") = VArr items ->
  Forall destructurable (firstn 100 items) ->
  let result := List.map entry_of (firstn 100 items) in
  fetchImgflipTemplates net = Normal result
  /\ (length result <= 100)%nat
  /\ length result = Nat.min 100 (length items)
  /\ forall i t, result !! i = Some t ->
       (i < 100)%nat /\ exists e, items !! i = Some e /\ t = entry_of e.
Proof.
  intros Hnet Hok Hjson Hsucc Hmemes Hall result.
  split; [| split; [| split]].
  - unfold fetchImgflipTemplates. answered Hnet Hok Hjson.
    rewrite !(truthy_field_object json _ Hsucc). cbn [bind].
    unfold falsy. rewrite Hsucc. cbn [negb].
    rewrite (array_field_object _ _ _ Hmemes). cbn [bind]. rewrite Hmemes.
    cbn [slice_100_then_map]. by rewrite map_throwing_entries.
  - unfold result. rewrite length_map, length_firstn. lia.
  - unfold result. by rewrite length_map, length_firstn.
  - intros i t Hi. unfold result in Hi.
    pose proof (lookup_lt_Some _ _ _ Hi) as Hlt.
    rewrite length_map, length_firstn in Hlt. split; [lia |].
    rewrite list_lookup_fmap in Hi.
    destruct (firstn 100 items !! i) as [e|] eqn:He; [| done].
    injection Hi as <-. exists e. split; [| done].
    change (firstn 100 items) with (take 100 items) in He.
    by rewrite lookup_take_lt in He by lia.
Qed.

Lemma fetchImgflipTemplates_first_100_witness :
  fetchImgflipTemplates sample_net
  = Normal
      [ {| id := VStr (js "181913649"); name := VStr (js "Drake Hotline Bling") |};
        {| id := VStr (js "87"); name := VStr (js "Two Buttons") |};
        {| id := VStr (js "112126428"); name := VStr (js "Distracted Boyfriend") |} ].
Proof.
  etransitivity.
  - refine (proj1 (fetchImgflipTemplates_first_100 sample_net _ _ _ _ _ _ _ _ _)).
    + vm_compute. reflexivity.
    + reflexivity.
    + vm_compute. reflexivity.
    + reflexivity.
    + vm_compute. reflexivity.
    + cbn [firstn]. repeat constructor; discriminate.
  - vm_compute. reflexivity.
Defined.

(** ** Deciding [contains] *)

Fixpoint containsb (hay needle : jsstring) : bool :=
  starts_with needle hay
  || match hay with
     | [] => false
     | _ :: rest => containsb rest needle
     end.

Lemma starts_with_prefix (p s : jsstring) :
  starts_with p s = true <-> exists post, s = p ++ post.
Proof.
  revert s. induction p as [|c p IH]; intros s.
  - split; [intros _; by exists s | done].
  - destruct s as [|d s]; cbn.
    + split; [done | intros [post Hpost]; discriminate].
    + rewrite andb_true_iff, N.eqb_eq, IH. split.
      * intros [-> [post ->]]. by exists post.
      * intros [post [= -> ->]]. split; [done | by exists post].
Qed.

Lemma containsb_contains (hay needle : jsstring) :
  containsb hay needle = true <-> contains hay needle.
Proof.
  induction hay as [|c hay IH].
  - cbn. rewrite orb_false_r, starts_with_prefix. split.
    + intros [post ->]. exists [], post. done.
    + intros (pre & post & H). destruct pre; [by exists post |]. discriminate.
  - cbn [containsb]. rewrite orb_true_iff, IH, starts_with_prefix. split.
    + intros [[post ->] | (pre & post & ->)].
      * by exists [], post.
      * by exists (c :: pre), post.
    + intros (pre & post & H). destruct pre as [|d pre].
      * left. by exists post.
      * right. injection H as -> ->. by exists pre, post.
Qed.

(** ** The check of the required parameters *)

Definition missing_parameters : jsstring := js "Missing required parameters".

Definition zero_template : CreateMemeArgs :=
  {| arg_templateId := Some (S754_zero false);
     arg_topText := Some (js "Top");
     arg_bottomText := Some (js "Bottom") |}.

Definition no_network : network := fun _ => Rejected NonError.

(** C10 as stated fails: with no credential configured, a [create_meme]
    call whose [templateId] is 0 is answered by the credential check, in
    both servers, and the message does not mention the parameters. *)
Lemma create_meme_unconfigured_counterexample :
  IndexTs.handleCreateMeme no_network ∅ (Some zero_template)
    = Throw (ErrorObj (js "Missing required environment variables: NEWSDATA_API_KEY, GEMINI_API_KEY, IMGFLIP_USERNAME, IMGFLIP_PASSWORD"))
  /\ AppTs.handleToolRequest no_network ∅ (create_meme (Some zero_template))
    = Failure (js "Missing required environment variables: NEWSDATA_API_KEY, GEMINI_API_KEY, IMGFLIP_USERNAME, IMGFLIP_PASSWORD")
  /\ ~ (forall (net : network) (env : environment) (a : CreateMemeArgs),
          arg_templateId a = Some (S754_zero false) ->
          exists m, IndexTs.handleCreateMeme net env (Some a) = Throw (ErrorObj m)
                    /\ contains m missing_parameters).
Proof.
  split; [vm_compute; reflexivity |]. split; [vm_compute; reflexivity |].
  intros H. destruct (H no_network ∅ zero_template eq_refl) as (m & Hm & Hc).
  vm_compute in Hm. injection Hm as <-.
  apply containsb_contains in Hc. vm_compute in Hc. discriminate.
Qed.

Lemma no_number_zero (x : number) : is_zero x = true -> no_number (Some x) = true.
Proof. intros H. cbn. by rewrite H. Qed.

(** C10, amended.  With the four credentials configured: a [create_meme]
    call whose [templateId] is zero, or whose [topText] or [bottomText] is
    the empty string, and a [generate_meme_caption] call whose [title] or
    [description] is the empty string, fail with the error of the missing
    required parameters, in the handlers of both files and through both
    dispatchers. *)
Theorem falsy_parameters_count_as_missing (net : network) (env : environment) :
  validateEnvVars env = Normal tt ->
  (forall a : CreateMemeArgs,
     (exists z, arg_templateId a = Some z /\ is_zero z = true)
     \/ arg_topText a = Some [] \/ arg_bottomText a = Some [] ->
     IndexTs.handleCreateMeme net env (Some a) = Throw (ErrorObj missing_meme_parameters)
     /\ AppTs.handleCreateMeme net env (Some a) = Throw (ErrorObj missing_meme_parameters)
     /\ IndexTs.callTool net env (create_meme (Some a)) = Failure missing_meme_parameters
     /\ AppTs.handleToolRequest net env (create_meme (Some a))
        = Failure missing_meme_parameters)
  /\ (forall a : GenerateCaptionArgs,
        arg_title a = Some [] \/ arg_description a = Some [] ->
        IndexTs.handleGenerateCaption net env (Some a)
          = Throw (ErrorObj missing_caption_parameters)
        /\ AppTs.handleGenerateCaption net env (Some a)
          = Throw (ErrorObj missing_caption_parameters)
        /\ IndexTs.callTool net env (generate_meme_caption (Some a))
          = Failure missing_caption_parameters
        /\ AppTs.handleToolRequest net env (generate_meme_caption (Some a))
          = Failure missing_caption_parameters)
  /\ contains missing_meme_parameters missing_parameters
  /\ contains missing_caption_parameters missing_parameters.
Proof.
  intros Henv. split; [| split; [| split]].
  - intros a Ha.
    assert (no_number (arg_templateId a) || no_text (arg_topText a)
            || no_text (arg_bottomText a) = true) as Hcheck.
    { destruct Ha as [(z & -> & Hz) | [-> | ->]].
      - by rewrite (no_number_zero z Hz).
      - cbn. by rewrite orb_true_r.
      - cbn. by rewrite orb_true_r. }
    unfold IndexTs.callTool, AppTs.handleToolRequest.
    unfold IndexTs.handleCreateMeme, AppTs.handleCreateMeme.
    rewrite Henv. cbn [bind]. rewrite Hcheck. by cbn.
  - intros a Ha.
    assert (no_text (arg_title a) || no_text (arg_description a)
            || no_list (arg_availableTemplates a) = true) as Hcheck.
    { destruct Ha as [-> | ->]; cbn; [done |].
      by rewrite orb_true_r. }
    unfold IndexTs.callTool, AppTs.handleToolRequest.
    unfold IndexTs.handleGenerateCaption, AppTs.handleGenerateCaption.
    rewrite Henv. cbn [bind]. rewrite Hcheck. by cbn.
  - apply containsb_contains. vm_compute. reflexivity.
  - apply containsb_contains. vm_compute. reflexivity.
Qed.

Lemma falsy_parameters_count_as_missing_witness :
  IndexTs.handleCreateMeme sample_net sample_env (Some zero_template)
  = Throw (ErrorObj missing_meme_parameters).
Proof.
  refine (proj1 (proj1 (falsy_parameters_count_as_missing sample_net sample_env _)
                   zero_template _)).
  - vm_compute. reflexivity.
  - left. by exists (S754_zero false).
Defined.

(** ** What the news client returns *)

(** X5.  When the upstream answer is a success whose body has an array as
    [results], the client returns that array as it is: every element, in
    the order received, whatever the length and whatever the elements are. *)
Lemma getIndianNewsByTopic_results net env topic res data items :
  net (news_request env topic) = Resolved res -> ok res = true ->
  response_json res = Normal data ->
  get_prop data (js "results") = Normal (VArr items) ->
  getIndianNewsByTopic net env topic = Normal items.
Proof.
  intros Hnet Hok Hdata Hres. unfold getIndianNewsByTopic.
  answered Hnet Hok Hdata. by rewrite Hres.
Qed.

(** X6.  A success answer whose body is JSON other than [null] and whose
    [results] is missing or is not an array gives the empty list, not an
    error. *)
Lemma getIndianNewsByTopic_malformed net env topic res data :
  net (news_request env topic) = Resolved res -> ok res = true ->
  response_json res = Normal data ->
  data <> VNull -> data <> VUndefined ->
  Array_isArray (get_prop_opt data (js "results")) = false ->
  getIndianNewsByTopic net env topic = Normal [].
Proof.
  intros Hnet Hok Hdata Hn Hu Hres. unfold getIndianNewsByTopic.
  answered Hnet Hok Hdata.
  destruct (get_prop_cases data) as [-> | [-> | Hget]]; [done.. |].
  rewrite Hget. cbn [bind]. rewrite Hres. by rewrite orb_true_r.
Qed.

(** An upstream answer with eleven articles. *)
Definition eleven_articles : jsstring :=
  jsq "{'status': 'success', 'results': ["
    ++ join (js ", ") (repeat (jsq "{'title': 'T', 'description': 'D'}") 11)
    ++ js "]}".

(** C1 fails on the code: the eleven articles of the answer all come back. *)
Theorem news_client_does_not_cap :
  exists news,
    getIndianNewsByTopic (fun _ => respond eleven_articles) sample_env (js "cricket")
      = Normal news
    /\ length news = 11%nat.
Proof. eexists. split; vm_compute; reflexivity. Qed.

(** C7 fails on the code: a success answer whose body is the JSON document
    [null] has no [results] field, and the client throws. *)
Theorem news_client_null_body_throws (env : environment) (topic : jsstring) :
  getIndianNewsByTopic (fun _ => respond (js "null")) env topic
  = Throw (ErrorObj (js "Failed to fetch news: Cannot read properties of null (reading 'results')")).
Proof. vm_compute. reflexivity. Qed.

(** ** The fuel of the JSON parser

    Every step of the parser uses up text, so the fuel [JSON_parse] starts
    with never runs out: more fuel gives the same answer. *)

Lemma expect_length (c : N) (s r : jsstring) :
  expect c s = Some r -> length s = S (length r).
Proof.
  destruct s as [|d s]; cbn; [done |]. destruct (N.eqb d c); [| done].
  by intros [= ->].
Qed.

Lemma skip_ws_length (s : jsstring) : (length (skip_ws s) <= length s)%nat.
Proof.
  induction s as [|c s IH]; cbn; [lia |]. destruct (is_json_ws c); cbn; lia.
Qed.

Lemma span_digits_length (base : N) (s : jsstring) (ds : list N) (r : jsstring) :
  span_digits base s = (ds, r) -> (length ds + length r = length s)%nat.
Proof.
  revert ds r. induction s as [|c s IH]; intros ds r; cbn.
  - by intros [= <- <-].
  - destruct (digit_value base c); [| by intros [= <- <-]].
    destruct (span_digits base s) as [ds' r'] eqn:E. intros [= <- <-].
    specialize (IH _ _ eq_refl). cbn. lia.
Qed.

Lemma parse_string_body_length (n : nat) :
  forall s acc x r, (length s <= n)%nat ->
    parse_string_body s acc = Some (x, r) -> (length r < length s)%nat.
Proof.
  induction n as [|n IH]; intros s acc x r Hn; destruct s as [|c s']; try done.
  { cbn in Hn. lia. }
  cbn [parse_string_body]. cbn [length] in Hn |- *.
  destruct (N.eqb c 34); [intros [= <- <-]; lia |].
  destruct (N.eqb c 92).
  - destruct s' as [|e s'']; [done |]. cbn [length] in Hn |- *.
    destruct (N.eqb e 117).
    + destruct s'' as [|h1 [|h2 [|h3 [|h4 rest]]]]; try done.
      destruct (hex4 h1 h2 h3 h4); [| done].
      cbn [length] in Hn |- *. intros H. apply IH in H; lia.
    + destruct (simple_escape e); [| done]. intros H. apply IH in H; lia.
  - destruct (N.ltb c 32); [done |]. intros H. apply IH in H; lia.
Qed.

Lemma scan_exponent_length (s : jsstring) (e : Z) (r : jsstring) :
  scan_exponent s = Some (e, r) -> (length r < length s)%nat.
Proof.
  destruct s as [|c s1]; [done |]. cbn [scan_exponent length].
  destruct (N.eqb c 101 || N.eqb c 69); [| done].
  destruct (expect 43 s1) as [t|] eqn:E1;
    [apply expect_length in E1
    | destruct (expect 45 s1) as [t|] eqn:E2; [apply expect_length in E2 |]];
    match goal with
    | |- context [span_digits 10 ?x] =>
        destruct (span_digits 10 x) as [[|d ds] rest] eqn:E; [done |];
        apply span_digits_length in E; intros [= _ <-]; cbn in *; lia
    end.
Qed.

Lemma parse_number_length (s : jsstring) (n : number) (r : jsstring) :
  parse_number s = Some (n, r) -> (length r < length s)%nat.
Proof.
  unfold parse_number.
  assert (exists neg s1, match expect 45 s with
                         | Some t => (true, t)
                         | None => (false, s)
                         end = (neg, s1) /\ (length s1 <= length s)%nat)
    as (neg & s1 & -> & Hs1).
  { destruct (expect 45 s) as [t|] eqn:E; [| by eexists _, _].
    apply expect_length in E. eexists _, _. split; [done | lia]. }
  destruct (span_digits 10 s1) as [ip s2] eqn:Eip. apply span_digits_length in Eip.
  destruct ip as [|d ip]; [done |]. cbn [length] in Eip.
  assert (forall fp s3, (length s3 <= length s2)%nat ->
            match s3 with
            | [] => Some (number_of_decimal neg (N_of_digits 10 ((d :: ip) ++ fp))
                            (- Z.of_nat (length fp)), s3)
            | c :: _ =>
                if (N.eqb c 101 || N.eqb c 69)%bool then
                  match scan_exponent s3 with
                  | Some (e, s4) =>
                      Some (number_of_decimal neg (N_of_digits 10 ((d :: ip) ++ fp))
                              (e + - Z.of_nat (length fp)), s4)
                  | None => None
                  end
                else Some (number_of_decimal neg (N_of_digits 10 ((d :: ip) ++ fp))
                             (- Z.of_nat (length fp)), s3)
            end = Some (n, r) -> (length r < length s)%nat) as Htail.
  { intros fp s3 Hs3. destruct s3 as [|c s3']; [intros [= _ <-]; cbn; lia |].
    destruct (N.eqb c 101 || N.eqb c 69).
    - destruct (scan_exponent (c :: s3')) as [[e s4]|] eqn:Ee; [| done].
      apply scan_exponent_length in Ee. intros [= _ <-]. lia.
    - intros [= _ <-]. lia. }
  assert (match expect 46 s2 with
          | Some t =>
              match span_digits 10 t with
              | ([], _) => None
              | (fp, s3) => Some (fp, s3)
              end
          | None => Some ([], s2)
          end = None
          \/ exists fp s3, match expect 46 s2 with
                           | Some t =>
                               match span_digits 10 t with
                               | ([], _) => None
                               | (fp, s3) => Some (fp, s3)
                               end
                           | None => Some ([], s2)
                           end = Some (fp, s3) /\ (length s3 <= length s2)%nat)
    as [Hfrac | (fp & s3 & Hfrac & Hs3)].
  { destruct (expect 46 s2) as [t|] eqn:E; [| right; by eexists _, _].
    apply expect_length in E.
    destruct (span_digits 10 t) as [[|x fp] s3] eqn:Efp; [by left |].
    apply span_digits_length in Efp. right. eexists _, _. split; [done | lia]. }
  - rewrite Hfrac. by destruct d as [|p], ip.
  - rewrite Hfrac. destruct d as [|p]; [destruct ip; [| done] |]; by apply Htail.
Qed.

Lemma starts_with_length (p s : jsstring) :
  starts_with p s = true -> (length (skipn (length p) s) + length p = length s)%nat.
Proof.
  revert s. induction p as [|c p IH]; intros s.
  { intros _. change (skipn (length []) s) with s. cbn [length]. lia. }
  destruct s as [|d s]; [done |]. cbn [starts_with]. intros [_ H]%andb_prop.
  specialize (IH s H). cbn [length skipn]. lia.
Qed.

Lemma parse_keyword_length (word : jsstring) (w : value) (s : jsstring)
    (v : value) (r : jsstring) :
  word <> [] -> parse_keyword word w s = Some (v, r) -> (length r < length s)%nat.
Proof.
  intros Hw. unfold parse_keyword. destruct (starts_with word s) eqn:E; [| done].
  apply starts_with_length in E. intros [= _ <-]. destruct word; [done |]. cbn in *. lia.
Qed.

Lemma parse_scalar_length (s : jsstring) (v : value) (r : jsstring) :
  parse_scalar s = Some (v, r) -> (length r < length s)%nat.
Proof.
  destruct s as [|c s']; [done |]. cbn [parse_scalar].
  destruct (N.eqb c 34).
  { destruct (parse_string_body s' []) as [[str rest]|] eqn:E; [| done].
    apply (parse_string_body_length (length s')) in E; [| done].
    intros [= _ <-]. cbn. lia. }
  destruct (N.eqb c 116); [by apply parse_keyword_length |].
  destruct (N.eqb c 102); [by apply parse_keyword_length |].
  destruct (N.eqb c 110); [by apply parse_keyword_length |].
  destruct (parse_number (c :: s')) as [[n rest]|] eqn:E; [| done].
  apply parse_number_length in E. by intros [= _ <-].
Qed.

Lemma parse_consumes (f : nat) :
  (forall s v r, parse_value f s = Some (v, r) -> (length r < length s)%nat)
  /\ (forall s acc v r,
        parse_elements f s acc = Some (v, r) -> (length r < length s)%nat)
  /\ (forall s acc v r,
        parse_members f s acc = Some (v, r) -> (length r < length s)%nat).
Proof.
  induction f as [|f (IHv & IHe & IHm)]; [done |].
  split; [| split].
  - intros s v r. cbn [parse_value].
    destruct (expect 91 s) as [s'|] eqn:E1.
    { apply expect_length in E1. pose proof (skip_ws_length s').
      destruct (expect 93 (skip_ws s')) as [rest|] eqn:E2.
      - apply expect_length in E2. intros [= _ <-]. lia.
      - intros H'. apply IHe in H'. lia. }
    destruct (expect 123 s) as [s'|] eqn:E2.
    { apply expect_length in E2. pose proof (skip_ws_length s').
      destruct (expect 125 (skip_ws s')) as [rest|] eqn:E3.
      - apply expect_length in E3. intros [= _ <-]. lia.
      - intros H'. apply IHm in H'. lia. }
    apply parse_scalar_length.
  - intros s acc v r. cbn [parse_elements].
    destruct (parse_value f s) as [[v0 r0]|] eqn:Ev; [| done].
    apply IHv in Ev. pose proof (skip_ws_length r0).
    destruct (expect 44 (skip_ws r0)) as [r'|] eqn:E1.
    { apply expect_length in E1. pose proof (skip_ws_length r').
      intros H'. apply IHe in H'. lia. }
    destruct (expect 93 (skip_ws r0)) as [r'|] eqn:E2; [| done].
    apply expect_length in E2. intros [= _ <-]. lia.
  - intros s acc v r. cbn [parse_members].
    destruct (expect 34 s) as [s2|] eqn:E0; [| done]. apply expect_length in E0.
    destruct (parse_string_body s2 []) as [[key r0]|] eqn:Ek; [| done].
    apply (parse_string_body_length (length s2)) in Ek; [| done].
    pose proof (skip_ws_length r0).
    destruct (expect 58 (skip_ws r0)) as [r1|] eqn:E1; [| done].
    apply expect_length in E1. pose proof (skip_ws_length r1).
    destruct (parse_value f (skip_ws r1)) as [[v0 r2]|] eqn:Ev; [| done].
    apply IHv in Ev. pose proof (skip_ws_length r2).
    destruct (expect 44 (skip_ws r2)) as [r'|] eqn:E2.
    { apply expect_length in E2. pose proof (skip_ws_length r').
      intros H'. apply IHm in H'. lia. }
    destruct (expect 125 (skip_ws r2)) as [r'|] eqn:E3; [| done].
    apply expect_length in E3. intros [= _ <-]. lia.
Qed.

Lemma parse_fuel_stable (f : nat) : forall f',
  (forall s, (2 * length s + 1 <= f)%nat -> (2 * length s + 1 <= f')%nat ->
     parse_value f s = parse_value f' s)
  /\ (forall s acc, (2 * length s + 2 <= f)%nat -> (2 * length s + 2 <= f')%nat ->
        parse_elements f s acc = parse_elements f' s acc)
  /\ (forall s acc, (2 * length s + 2 <= f)%nat -> (2 * length s + 2 <= f')%nat ->
        parse_members f s acc = parse_members f' s acc).
Proof.
  induction f as [|f IH]; intros f'; [repeat split; intros; lia |].
  destruct f' as [|f']; [repeat split; intros; lia |].
  destruct (IH f') as (IHv & IHe & IHm). split; [| split].
  - intros s H1 H2. cbn [parse_value].
    destruct (expect 91 s) as [s'|] eqn:E1.
    { apply expect_length in E1. pose proof (skip_ws_length s').
      destruct (expect 93 (skip_ws s')); [done |]. apply IHe; lia. }
    destruct (expect 123 s) as [s'|] eqn:E2; [| done].
    apply expect_length in E2. pose proof (skip_ws_length s').
    destruct (expect 125 (skip_ws s')); [done |]. apply IHm; lia.
  - intros s acc H1 H2. cbn [parse_elements]. rewrite (IHv s) by lia.
    destruct (parse_value f' s) as [[v r]|] eqn:Ev; [| done].
    apply (proj1 (parse_consumes f')) in Ev. pose proof (skip_ws_length r).
    destruct (expect 44 (skip_ws r)) as [r'|] eqn:E1; [| done].
    apply expect_length in E1. pose proof (skip_ws_length r'). apply IHe; lia.
  - intros s acc H1 H2. cbn [parse_members].
    destruct (expect 34 s) as [s2|] eqn:E0; [| done]. apply expect_length in E0.
    destruct (parse_string_body s2 []) as [[key r0]|] eqn:Ek; [| done].
    apply (parse_string_body_length (length s2)) in Ek; [| done].
    pose proof (skip_ws_length r0).
    destruct (expect 58 (skip_ws r0)) as [r1|] eqn:E1; [| done].
    apply expect_length in E1. pose proof (skip_ws_length r1).
    rewrite (IHv (skip_ws r1)) by lia.
    destruct (parse_value f' (skip_ws r1)) as [[v r2]|] eqn:Ev; [| done].
    apply (proj1 (parse_consumes f')) in Ev. pose proof (skip_ws_length r2).
    destruct (expect 44 (skip_ws r2)) as [r'|] eqn:E2; [| done].
    apply expect_length in E2. pose proof (skip_ws_length r'). apply IHm; lia.
Qed.

(** The answer of [JSON_parse] does not depend on its fuel. *)
Theorem JSON_parse_fuel (text : jsstring) (f : nat) :
  (2 * length text + 2 <= f)%nat ->
  parse_value f (skip_ws text) = parse_value (2 * length text + 2) (skip_ws text).
Proof.
  intros Hf. pose proof (skip_ws_length text).
  apply (proj1 (parse_fuel_stable f (2 * length text + 2))); lia.
Qed.

(* ===================================================================== *)
(** * Further properties of the clients *)
(* ===================================================================== *)

(** ** How a client fails *)

Definition news_failure : jsstring := js "Failed to fetch news: ".
Definition templates_failure : jsstring := js "Failed to fetch templates: ".
Definition caption_failure : jsstring := js "Failed to generate caption: ".
Definition meme_failure : jsstring := js "Failed to generate meme: ".

Lemma rethrown_prefixed {A} (body : completion A) (pre : jsstring) (e : thrown) :
  try_catch body (fun err => throw_Error (pre ++ message_or_unknown err)) = Throw e ->
  exists m, e = ErrorObj (pre ++ m).
Proof. destruct body; cbn; [done |]. intros [= <-]. by eexists. Qed.

(** Numbers and strings always have a text. *)
Lemma Array_join_numbers (sep : jsstring) (ids : list number) :
  Array_join sep (List.map VNum ids) = Normal (join sep (List.map Number_toString ids)).
Proof.
  unfold Array_join. induction ids as [|x ids IH]; [done |].
  cbn [List.map join_with join]. destruct ids as [|y ids]; [done |].
  change (join_with ToString sep (List.map VNum (y :: ids)))
    with (join_with ToString sep (VNum y :: List.map VNum ids)) in IH.
  cbn [List.map] in IH |- *. cbn [ToString bind]. by rewrite IH.
Qed.

(** What follows the construction of the prompt in [generateCaption], for a
    title and a description that are strings and template ids that are
    numbers. *)
Lemma generateCaption_typed srv net env (title description : jsstring)
    (ids : list number) :
  generateCaption srv net env (VStr title) (VStr description) (List.map VNum ids)
  = let request :=
      caption_request env
        (prompt srv title description
           (join (js ", ") (List.map Number_toString ids))) in
    try_catch
      (res <- fetch net request ;;
       if negb (ok res) then throw_Error (js "Gemini API error: " ++ status_line res)
       else
         data <- response_json res ;;
         let output := first_candidate_text data in
         if falsy output then Normal None
         else parseMemeCaption output)
      (fun err => throw_Error (caption_failure ++ message_or_unknown err)).
Proof.
  unfold generateCaption. cbn [ToString bind]. by rewrite Array_join_numbers.
Qed.

(** The request [generateCaption] sends for typed arguments. *)
Definition typed_caption_request (srv : server) (env : environment)
    (title description : jsstring) (ids : list number) : Request :=
  caption_request env
    (prompt srv title description (join (js ", ") (List.map Number_toString ids))).

(** X1.  Every exception that leaves a client is an [Error] whose message
    begins with the text of that client: [Failed to fetch news: ],
    [Failed to fetch templates: ], [Failed to generate meme: ], and, when
    the title and the description are strings and the template ids numbers,
    [Failed to generate caption: ]. *)
Theorem client_failures_carry_their_prefix :
  (forall net env topic e,
     getIndianNewsByTopic net env topic = Throw e ->
     exists m, e = ErrorObj (news_failure ++ m))
  /\ (forall net e,
        fetchImgflipTemplates net = Throw e ->
        exists m, e = ErrorObj (templates_failure ++ m))
  /\ (forall net env templateId top bottom e,
        generateMeme net env templateId top bottom = Throw e ->
        exists m, e = ErrorObj (meme_failure ++ m))
  /\ (forall srv net env (title description : jsstring) (ids : list number) e,
        generateCaption srv net env (VStr title) (VStr description) (List.map VNum ids)
          = Throw e ->
        exists m, e = ErrorObj (caption_failure ++ m)).
Proof.
  repeat split.
  - intros net env topic e. apply rethrown_prefixed.
  - intros net e. apply rethrown_prefixed.
  - intros net env templateId top bottom e. apply rethrown_prefixed.
  - intros srv net env title description ids e. rewrite generateCaption_typed.
    apply rethrown_prefixed.
Qed.

(** A title that cannot be turned into a text escapes the [catch] of
    [generateCaption]: the prompt is built before the [try]. *)
Example generateCaption_unprefixed_failure (srv : server) (net : network)
    (env : environment) :
  generateCaption srv net env (VObj [(js "toString", VNull)]) (VStr (js "d")) []
  = Throw TypeError_to_primitive.
Proof. reflexivity. Qed.

(** X2.  A response whose status is not a success makes each client throw
    its own error with the status code and the status text of the response,
    whatever the body is. *)
Theorem clients_report_the_http_status (res : Response) :
  ok res = false ->
  (forall net env topic,
     net (news_request env topic) = Resolved res ->
     getIndianNewsByTopic net env topic
     = Throw (ErrorObj (news_failure ++ js "NewsData API error: " ++ status_line res)))
  /\ (forall net,
        net templates_request = Resolved res ->
        fetchImgflipTemplates net
        = Throw (ErrorObj (templates_failure
                             ++ js "Imgflip templates API error: " ++ status_line res)))
  /\ (forall net env templateId top bottom,
        net (meme_request env templateId top bottom) = Resolved res ->
        generateMeme net env templateId top bottom
        = Throw (ErrorObj (meme_failure ++ js "Imgflip API error: " ++ status_line res)))
  /\ (forall srv net env title description ids,
        net (typed_caption_request srv env title description ids) = Resolved res ->
        generateCaption srv net env (VStr title) (VStr description) (List.map VNum ids)
        = Throw (ErrorObj (caption_failure ++ js "Gemini API error: " ++ status_line res))).
Proof.
  intros Hok. repeat split.
  - intros net env topic Hnet. unfold getIndianNewsByTopic, fetch.
    rewrite Hnet. cbn [bind]. by rewrite Hok.
  - intros net Hnet. unfold fetchImgflipTemplates, fetch.
    rewrite Hnet. cbn [bind]. by rewrite Hok.
  - intros net env templateId top bottom Hnet. unfold generateMeme, fetch.
    rewrite Hnet. cbn [bind]. by rewrite Hok.
  - intros srv net env title description ids Hnet. rewrite generateCaption_typed.
    unfold typed_caption_request in Hnet. cbn zeta. unfold fetch.
    rewrite Hnet. cbn [bind]. by rewrite Hok.
Qed.

Definition server_error : Response :=
  {| status := 503; statusText := js "Service Unavailable"; body := js "<html>busy</html>" |}.

Lemma clients_report_the_http_status_witness :
  getIndianNewsByTopic (fun _ => Resolved server_error) sample_env (js "cricket")
  = Throw (ErrorObj (js "Failed to fetch news: NewsData API error: 503 Service Unavailable")).
Proof.
  refine (proj1 (clients_report_the_http_status server_error _)
            (fun _ => Resolved server_error) sample_env (js "cricket") _);
    reflexivity.
Defined.

(** X3.  When [fetch] itself fails, each client throws its own error
    with the message of the failure, or with [Unknown error] when what was
    thrown is not an [Error]. *)
Theorem clients_report_a_rejected_fetch (e : thrown) :
  (forall net env topic,
     net (news_request env topic) = Rejected e ->
     getIndianNewsByTopic net env topic
     = Throw (ErrorObj (news_failure ++ message_or_unknown e)))
  /\ (forall net,
        net templates_request = Rejected e ->
        fetchImgflipTemplates net
        = Throw (ErrorObj (templates_failure ++ message_or_unknown e)))
  /\ (forall net env templateId top bottom,
        net (meme_request env templateId top bottom) = Rejected e ->
        generateMeme net env templateId top bottom
        = Throw (ErrorObj (meme_failure ++ message_or_unknown e)))
  /\ (forall srv net env title description ids,
        net (typed_caption_request srv env title description ids) = Rejected e ->
        generateCaption srv net env (VStr title) (VStr description) (List.map VNum ids)
        = Throw (ErrorObj (caption_failure ++ message_or_unknown e)))
  /\ message_or_unknown NonError = js "Unknown error".
Proof.
  repeat split.
  - intros net env topic Hnet. unfold getIndianNewsByTopic, fetch. by rewrite Hnet.
  - intros net Hnet. unfold fetchImgflipTemplates, fetch. by rewrite Hnet.
  - intros net env templateId top bottom Hnet. unfold generateMeme, fetch.
    by rewrite Hnet.
  - intros srv net env title description ids Hnet. rewrite generateCaption_typed.
    unfold typed_caption_request in Hnet. cbn zeta. unfold fetch. by rewrite Hnet.
Qed.

(** X4.  A success response whose body is not JSON makes each client throw
    its own error with the message of the parser: the news client answers
    such a body with an error, not with the empty list. *)
Theorem clients_report_a_body_that_is_not_json (res : Response) (e : thrown) :
  ok res = true -> response_json res = Throw e ->
  (forall net env topic,
     net (news_request env topic) = Resolved res ->
     getIndianNewsByTopic net env topic
     = Throw (ErrorObj (news_failure ++ message_or_unknown e)))
  /\ (forall net,
        net templates_request = Resolved res ->
        fetchImgflipTemplates net
        = Throw (ErrorObj (templates_failure ++ message_or_unknown e)))
  /\ (forall net env templateId top bottom,
        net (meme_request env templateId top bottom) = Resolved res ->
        generateMeme net env templateId top bottom
        = Throw (ErrorObj (meme_failure ++ message_or_unknown e)))
  /\ (forall srv net env title description ids,
        net (typed_caption_request srv env title description ids) = Resolved res ->
        generateCaption srv net env (VStr title) (VStr description) (List.map VNum ids)
        = Throw (ErrorObj (caption_failure ++ message_or_unknown e))).
Proof.
  intros Hok Hjson. repeat split.
  - intros net env topic Hnet. unfold getIndianNewsByTopic. by answered Hnet Hok Hjson.
  - intros net Hnet. unfold fetchImgflipTemplates. by answered Hnet Hok Hjson.
  - intros net env templateId top bottom Hnet. unfold generateMeme.
    by answered Hnet Hok Hjson.
  - intros srv net env title description ids Hnet. rewrite generateCaption_typed.
    unfold typed_caption_request in Hnet. cbn zeta. by answered Hnet Hok Hjson.
Qed.

Lemma clients_report_a_body_that_is_not_json_witness :
  fetchImgflipTemplates (fun _ => respond (js "<html>maintenance</html>"))
  = Throw (ErrorObj (js "Failed to fetch templates: Unexpected token in JSON")).
Proof.
  refine (proj1 (proj2 (clients_report_a_body_that_is_not_json
                          {| status := 200; statusText := js "OK";
                             body := js "<html>maintenance</html>" |}
                          SyntaxError_JSON _ _))
            (fun _ => respond (js "<html>maintenance</html>")) _);
    reflexivity.
Defined.

(** ** What the parser of JSON never produces *)

Lemma parse_never_undefined (f : nat) :
  (forall s v r, parse_value f s = Some (v, r) -> v <> VUndefined)
  /\ (forall s acc v r, parse_elements f s acc = Some (v, r) -> v <> VUndefined)
  /\ (forall s acc v r, parse_members f s acc = Some (v, r) -> v <> VUndefined).
Proof.
  induction f as [|f (IHv & IHe & IHm)]; [done |].
  split; [| split].
  - intros s v r. cbn [parse_value].
    destruct (expect 91 s) as [s'|].
    { destruct (expect 93 (skip_ws s')); [by intros [= <- _] | apply IHe]. }
    destruct (expect 123 s) as [s'|].
    { destruct (expect 125 (skip_ws s')); [by intros [= <- _] | apply IHm]. }
    destruct s as [|c s']; [done |]. cbn [parse_scalar]. unfold parse_keyword.
    repeat match goal with
           | |- context [if ?b then _ else _] => destruct b
           | |- context [match ?x with _ => _ end] => destruct x as [[? ?]|]
           end; try done; by intros [= <- _].
  - intros s acc v r. cbn [parse_elements].
    destruct (parse_value f s) as [[v0 r0]|]; [| done].
    destruct (expect 44 (skip_ws r0)); [apply IHe |].
    destruct (expect 93 (skip_ws r0)); [by intros [= <- _] | done].
  - intros s acc v r. cbn [parse_members].
    destruct (expect 34 s) as [s2|]; [| done].
    destruct (parse_string_body s2 []) as [[key r0]|]; [| done].
    destruct (expect 58 (skip_ws r0)) as [r1|]; [| done].
    destruct (parse_value f (skip_ws r1)) as [[v0 r2]|]; [| done].
    destruct (expect 44 (skip_ws r2)); [apply IHm |].
    destruct (expect 125 (skip_ws r2)); [by intros [= <- _] | done].
Qed.

Lemma JSON_parse_defined (text : jsstring) (v : value) :
  JSON_parse text = Normal v -> v <> VUndefined.
Proof.
  unfold JSON_parse.
  destruct (parse_value _ _) as [[w rest]|] eqn:Hp; [| done].
  destruct (skip_ws rest); [| done]. intros [= <-].
  by apply (proj1 (parse_never_undefined _)) in Hp.
Qed.

(** A parsed body that is not [null] can be read. *)
Lemma parsed_body_readable (res : Response) (data : value) :
  response_json res = Normal data -> data <> VNull ->
  forall key, get_prop data key = Normal (get_prop_opt data key).
Proof.
  intros Hjson Hnull. apply JSON_parse_defined in Hjson.
  by destruct (get_prop_cases data) as [-> | [-> | Hget]].
Qed.

(** ** The renderer *)

(** X7.  When the renderer answers with a truthy [success], [generateMeme]
    returns [data.url] if that is truthy and [null] otherwise: a success
    without an address is not an error. *)
Theorem generateMeme_accepted net env templateId top bottom res data :
  net (meme_request env templateId top bottom) = Resolved res ->
  ok res = true -> response_json res = Normal data ->
  ToBoolean (get_prop_opt data (js "success")) = true ->
  let url := get_prop_opt (get_prop_opt data (js "data")) (js "url") in
  generateMeme net env templateId top bottom
  = Normal (if ToBoolean url then url else VNull).
Proof.
  intros Hnet Hok Hjson Hsucc url. unfold generateMeme. answered Hnet Hok Hjson.
  rewrite !(truthy_field_object data _ Hsucc). cbn [bind].
  unfold falsy. rewrite Hsucc. reflexivity.
Qed.

Lemma generateMeme_accepted_witness :
  generateMeme (fun _ => respond (jsq "{'success': true}")) sample_env
    (number_of_N 87) (js "Top") (js "Bottom")
  = Normal VNull.
Proof.
  refine (generateMeme_accepted (fun _ => respond (jsq "{'success': true}")) sample_env
            (number_of_N 87) (js "Top") (js "Bottom")
            {| status := 200; statusText := js "OK"; body := jsq "{'success': true}" |}
            (VObj [(js "success", VBool true)]) _ _ _ _);
    first [reflexivity | vm_compute; reflexivity].
Defined.

Definition renderer_refusal : jsstring := js "Imgflip API error: ".

(** X8.  When the renderer answers with a [success] that is absent or
    falsy, [generateMeme] throws, and the message ends with the text of the
    [error_message] of the answer, as the service gave it. *)
Theorem generateMeme_refused net env templateId top bottom res data text :
  net (meme_request env templateId top bottom) = Resolved res ->
  ok res = true -> response_json res = Normal data -> data <> VNull ->
  falsy (get_prop_opt data (js "success")) = true ->
  ToString (get_prop_opt data (js "error_message")) = Normal text ->
  generateMeme net env templateId top bottom
  = Throw (ErrorObj (meme_failure ++ renderer_refusal ++ text)).
Proof.
  intros Hnet Hok Hjson Hnull Hsucc Htext. unfold generateMeme.
  answered Hnet Hok Hjson.
  rewrite !(parsed_body_readable res data Hjson Hnull). cbn [bind].
  rewrite Hsucc. cbn [bind]. by rewrite Htext.
Qed.

Lemma generateMeme_refused_witness :
  generateMeme
    (fun _ => respond (jsq "{'success': false, 'error_message': 'No texts specified'}"))
    sample_env (number_of_N 87) (js "Top") (js "Bottom")
  = Throw (ErrorObj (js "Failed to generate meme: Imgflip API error: No texts specified")).
Proof.
  refine (generateMeme_refused
            (fun _ => respond (jsq "{'success': false, 'error_message': 'No texts specified'}"))
            sample_env (number_of_N 87) (js "Top") (js "Bottom")
            {| status := 200; statusText := js "OK";
               body := jsq "{'success': false, 'error_message': 'No texts specified'}" |}
            (VObj [(js "success", VBool false);
                   (js "error_message", VStr (js "No texts specified"))])
            (js "No texts specified") _ _ _ _ _ _);
    first [reflexivity | discriminate | vm_compute; reflexivity].
Defined.

(** ** The caption generator *)

(** X9.  Once the model has answered with a success status and a JSON body,
    [generateCaption] does not throw: it returns [null] when the first part
    of the first candidate has no text, and what [parseMemeCaption] makes of
    that text otherwise. *)
Theorem generateCaption_answered srv net env title description ids res data :
  net (typed_caption_request srv env title description ids) = Resolved res ->
  ok res = true -> response_json res = Normal data ->
  let output := first_candidate_text data in
  let result :=
    generateCaption srv net env (VStr title) (VStr description) (List.map VNum ids) in
  (exists r, result = Normal r)
  /\ (falsy output = true -> result = Normal None)
  /\ (falsy output = false -> result = parseMemeCaption output).
Proof.
  intros Hnet Hok Hjson output result. unfold result.
  rewrite generateCaption_typed. unfold typed_caption_request in Hnet. cbn zeta.
  answered Hnet Hok Hjson. fold output.
  destruct (parseMemeCaption_never_throws output) as [r Hr].
  destruct (falsy output); rewrite ?Hr; cbn [try_catch]; repeat split; eauto; done.
Qed.

Lemma generateCaption_answered_witness :
  generateCaption app_ts (fun _ => respond (jsq "{'candidates': []}")) sample_env
    (VStr (js "Title")) (VStr (js "Description")) (List.map VNum [number_of_N 87])
  = Normal None.
Proof.
  refine (proj1 (proj2 (generateCaption_answered app_ts
                          (fun _ => respond (jsq "{'candidates': []}")) sample_env
                          (js "Title") (js "Description") [number_of_N 87]
                          {| status := 200; statusText := js "OK";
                             body := jsq "{'candidates': []}" |}
                          (VObj [(js "candidates", VArr [])]) _ _ _)) _);
    first [reflexivity | vm_compute; reflexivity].
Defined.

(** ** The catalog *)

(** X10.  When the catalog answers with a [success] that is absent or
    falsy, [fetchImgflipTemplates] throws the error of the refused catalog,
    whatever else the answer holds. *)
Theorem fetchImgflipTemplates_refused net res json :
  net templates_request = Resolved res -> ok res = true ->
  response_json res = Normal json -> json <> VNull ->
  falsy (get_prop_opt json (js "success")) = true ->
  fetchImgflipTemplates net
  = Throw (ErrorObj (templates_failure ++ js "Imgflip API returned success: false")).
Proof.
  intros Hnet Hok Hjson Hnull Hsucc. unfold fetchImgflipTemplates.
  answered Hnet Hok Hjson.
  rewrite !(parsed_body_readable res json Hjson Hnull). cbn [bind].
  by rewrite Hsucc.
Qed.

Lemma fetchImgflipTemplates_refused_witness :
  fetchImgflipTemplates (fun _ => respond (jsq "{'data': {'memes': []}}"))
  = Throw (ErrorObj (js "Failed to fetch templates: Imgflip API returned success: false")).
Proof.
  refine (fetchImgflipTemplates_refused
            (fun _ => respond (jsq "{'data': {'memes': []}}"))
            {| status := 200; statusText := js "OK";
               body := jsq "{'data': {'memes': []}}" |}
            (VObj [(js "data", VObj [(js "memes", VArr [])])]) _ _ _ _ _);
    first [reflexivity | discriminate | vm_compute; reflexivity].
Defined.

Lemma map_throwing_length {A B} (f : A -> completion B) (items : list A) (l : list B) :
  map_throwing f items = Normal l -> length l = length items.
Proof.
  revert l. induction items as [|x items IH]; intros l; cbn [map_throwing].
  - by intros [= <-].
  - destruct (f x); cbn [bind]; [| done].
    destruct (map_throwing f items) as [ys|]; cbn [bind]; [| done].
    intros [= <-]. cbn. by rewrite (IH ys).
Qed.

Lemma map_throwing_fails {A B} (f : A -> completion B) (items : list A) :
  Exists (fun x => exists e, f x = Throw e) items ->
  exists e, map_throwing f items = Throw e.
Proof.
  induction 1 as [x items (e & He) | x items _ (e & IH)]; cbn [map_throwing].
  - rewrite He. by exists e.
  - destruct (f x); cbn [bind]; [| by eexists]. rewrite IH. by exists e.
Qed.

(** X11.  Whatever the network answers, a list returned by
    [fetchImgflipTemplates] has at most 100 entries. *)
Theorem fetchImgflipTemplates_at_most_100 (net : network) (l : list ImgflipTemplate) :
  fetchImgflipTemplates net = Normal l -> (length l <= 100)%nat.
Proof.
  unfold fetchImgflipTemplates.
  destruct (fetch net templates_request) as [res|]; cbn [bind try_catch]; [| done].
  destruct (negb (ok res)); [done |].
  destruct (response_json res) as [json|]; cbn [bind try_catch]; [| done].
  destruct (get_prop json (js "success")) as [success|]; cbn [bind try_catch]; [| done].
  destruct (falsy success); [done |].
  destruct (get_prop json (js "data")) as [data|]; cbn [bind try_catch]; [| done].
  destruct (get_prop data (js "memes")) as [memes|]; cbn [bind try_catch]; [| done].
  destruct memes as [| | | | |items|]; try done. cbn [slice_100_then_map].
  destruct (map_throwing pick_id_name (firstn 100 items)) as [ts|] eqn:Hmap; [| done].
  cbn [try_catch]. intros [= <-]. apply map_throwing_length in Hmap.
  rewrite Hmap, length_firstn. lia.
Qed.

Lemma fetchImgflipTemplates_at_most_100_witness :
  (length [ {| id := VStr (js "181913649"); name := VStr (js "Drake Hotline Bling") |};
            {| id := VStr (js "87"); name := VStr (js "Two Buttons") |};
            {| id := VStr (js "112126428"); name := VStr (js "Distracted Boyfriend") |} ]
   <= 100)%nat.
Proof.
  refine (fetchImgflipTemplates_at_most_100 sample_net _ _). vm_compute. reflexivity.
Defined.

(** X12.  One [null] among the first 100 entries of the catalog loses the
    whole catalog: [fetchImgflipTemplates] throws instead of skipping the
    entry. *)
Theorem fetchImgflipTemplates_null_entry net res json items :
  net templates_request = Resolved res -> ok res = true ->
  response_json res = Normal json ->
  ToBoolean (get_prop_opt json (js "success")) = true ->
  get_prop_opt (get_prop_opt json (js "data")) (js "memes") = VArr items ->
  In VNull (firstn 100 items) ->
  exists m, fetchImgflipTemplates net = Throw (ErrorObj (templates_failure ++ m)).
Proof.
  intros Hnet Hok Hjson Hsucc Hmemes Hin.
  destruct (map_throwing_fails pick_id_name (firstn 100 items)) as [e He].
  { apply Exists_exists. exists VNull. split; [by apply list_elem_of_In |]. by eexists. }
  unfold fetchImgflipTemplates. answered Hnet Hok Hjson.
  rewrite !(truthy_field_object json _ Hsucc). cbn [bind].
  unfold falsy. rewrite Hsucc. cbn [negb].
  rewrite (array_field_object _ _ _ Hmemes). cbn [bind]. rewrite Hmemes.
  cbn [slice_100_then_map]. rewrite He. cbn [try_catch]. by eexists.
Qed.

Lemma fetchImgflipTemplates_null_entry_witness :
  exists m,
    fetchImgflipTemplates
      (fun _ => respond (jsq "{'success': true, 'data': {'memes': [{'id': '87', 'name': 'Two Buttons'}, null]}}"))
    = Throw (ErrorObj (templates_failure ++ m)).
Proof.
  refine (fetchImgflipTemplates_null_entry
            (fun _ => respond (jsq "{'success': true, 'data': {'memes': [{'id': '87', 'name': 'Two Buttons'}, null]}}"))
            {| status := 200; statusText := js "OK";
               body := jsq "{'success': true, 'data': {'memes': [{'id': '87', 'name': 'Two Buttons'}, null]}}" |}
            _ [VObj [(js "id", VStr (js "87")); (js "name", VStr (js "Two Buttons"))]; VNull]
            _ _ _ _ _ _).
  - reflexivity.
  - reflexivity.
  - vm_compute. reflexivity.
  - reflexivity.
  - vm_compute. reflexivity.
  - cbn. tauto.
Defined.

(* ===================================================================== *)
(** * Further properties of the servers *)
(* ===================================================================== *)

(** ** The credential check of the two dispatchers *)





(** ** The two servers are one service *)







(** ** The workflow, step by step *)

(** An article is complete exactly when its title and its description are
    truthy. *)
Lemma complete_article_iff (article : value) :
  complete_article article
  <-> ToBoolean (get_prop_opt article (js "title")) = true
      /\ ToBoolean (get_prop_opt article (js "description")) = true.
Proof.
  unfold complete_article, article_incomplete, falsy.
  destruct (get_prop_cases article) as [-> | [-> | Hget]].
  - cbn. split; [done | by intros [? _]].
  - cbn. split; [done | by intros [? _]].
  - rewrite !Hget. cbn [bind].
    destruct (ToBoolean article) eqn:Ha; cbn [negb].
    + destruct (ToBoolean (get_prop_opt article (js "title"))); cbn [negb].
      * destruct (ToBoolean (get_prop_opt article (js "description")));
          cbn [negb]; split; try done; by intros [_ ?].
      * split; [done | by intros [? _]].
    + split; [done |]. intros [Ht _]. by destruct article.
Qed.

(** X15.  When every step succeeds, the workflow answers with the title and
    the description of the selected article, the caption of the model and
    the address the renderer gave.  The template of the caption is handed to
    the renderer as the model chose it: nothing checks it against the
    templates that were offered. *)
Theorem workflow_succeeds srv net env args news templates c memeUrl :
  let topic := topic_or_empty (args ≫= arg_topic) in
  let article := element_at news (index_or_zero (args ≫= arg_articleIndex)) in
  let title := get_prop_opt article (js "title") in
  let description := get_prop_opt article (js "description") in
  validateEnvVars env = Normal tt ->
  getIndianNewsByTopic net env topic = Normal news ->
  ToBoolean title = true -> ToBoolean description = true ->
  fetchImgflipTemplates net = Normal templates ->
  generateCaption srv net env title description (List.map id templates) = Normal (Some c) ->
  generateMeme net env (image c) (topText c) (bottomText c) = Normal memeUrl ->
  handleGenerateNewsMeme srv net env args
  = Normal (NewsMemePayload title description c memeUrl).
Proof.
  intros topic article title description Henv Hnews Ht Hd Htem Hcap Hmeme.
  rewrite handleGenerateNewsMeme_configured by done. fold topic.
  assert (news <> []) as Hne.
  { intros ->. subst title article. unfold element_at in Ht.
    destruct (integer_of_number _) as [i|]; [| done].
    cbn [length] in Ht. by destruct ((0 <=? i) && (i <? Z.of_nat 0)) eqn:E. }
  rewrite (workflow_after_templates srv net env topic _ news templates); try done.
  - fold article title description. rewrite Hcap. cbn [bind]. by rewrite Hmeme.
  - by apply complete_article_iff.
Qed.

Lemma workflow_succeeds_witness :
  handleGenerateNewsMeme index_ts sample_net sample_env
    (Some {| arg_topic := Some (js "cricket"); arg_articleIndex := Some (number_of_N 1) |})
  = Normal
      (NewsMemePayload (VStr (js "Rain stops play")) (VStr (js "Covers are on"))
         {| image := number_of_N 87; topText := js "Toss won"; bottomText := js "Match lost" |}
         (VStr (js "https://i.imgflip.com/abc.jpg"))).
Proof.
  etransitivity.
  - refine (workflow_succeeds index_ts sample_net sample_env
              (Some {| arg_topic := Some (js "cricket");
                       arg_articleIndex := Some (number_of_N 1) |})
              _ _ _ _ _ _ _ _ _ _ _).
    + vm_compute. reflexivity.
    + vm_compute. reflexivity.
    + vm_compute. reflexivity.
    + vm_compute. reflexivity.
    + vm_compute. reflexivity.
    + vm_compute. reflexivity.
    + vm_compute. reflexivity.
  - vm_compute. reflexivity.
Defined.

(** X16.  When the selected article of a list that is not empty has no
    title or no description, or a falsy one such as the empty text, the
    handler of either file throws the error with the message [Failed to
    generate news meme: Selected article missing title or description]. *)
Theorem incomplete_article_stops_the_workflow srv net env args news :
  let topic := topic_or_empty (args ≫= arg_topic) in
  let article := element_at news (index_or_zero (args ≫= arg_articleIndex)) in
  validateEnvVars env = Normal tt ->
  getIndianNewsByTopic net env topic = Normal news -> news <> [] ->
  falsy (get_prop_opt article (js "title")) = true
  \/ falsy (get_prop_opt article (js "description")) = true ->
  handleGenerateNewsMeme srv net env args
  = Throw (ErrorObj
             (js "Failed to generate news meme: Selected article missing title or description")).
Proof.
  intros topic article Henv Hnews Hne Hfalsy.
  change (js "Failed to generate news meme: Selected article missing title or description")
    with (workflow_prefix ++ js "Selected article missing title or description").
  rewrite handleGenerateNewsMeme_configured by done. fold topic.
  unfold workflow. rewrite Hnews. cbn [bind].
  destruct news as [|x news']; [done |]. cbn [length Nat.eqb]. fold article.
  assert (article_incomplete article = Normal true) as ->; [| done].
  unfold article_incomplete.
  destruct (get_prop_cases article) as [-> | [-> | Hget]]; [done.. |].
  rewrite !Hget. cbn [bind]. destruct (falsy article); [done |].
  destruct (falsy (get_prop_opt article (js "title"))); [done |].
  destruct Hfalsy as [Hf | Hf]; [done | by rewrite Hf].
Qed.

Lemma incomplete_article_stops_the_workflow_witness :
  handleGenerateNewsMeme app_ts
    (fun _ => respond (jsq "{'results': [{'title': 'Only a title', 'description': ''}]}"))
    sample_env None
  = Throw (ErrorObj
             (js "Failed to generate news meme: Selected article missing title or description")).
Proof.
  refine (incomplete_article_stops_the_workflow app_ts
            (fun _ => respond (jsq "{'results': [{'title': 'Only a title', 'description': ''}]}"))
            sample_env None _ _ _ _ _).
  - vm_compute. reflexivity.
  - vm_compute. reflexivity.
  - discriminate.
  - right. vm_compute. reflexivity.
Defined.

(** The workflow stops after the news step: the step failed, found nothing,
    or found the selected article incomplete. *)
Definition stops_after_news (net : network) (env : environment)
    (topic : jsstring) (idx : number) : Prop :=
  match getIndianNewsByTopic net env topic with
  | Throw _ => True
  | Normal news =>
      news = [] \/ article_incomplete (element_at news idx) = Normal true
  end.

(** X17.  The steps run in order, and a step that fails ends the workflow:
    when the news step fails, returns no article or selects an incomplete
    one, the answer depends on the network through the news request alone,
    so neither the catalog, nor the model, nor the renderer is asked. *)
Theorem no_request_after_the_news_step_fails srv (net net' : network) env args :
  let topic := topic_or_empty (args ≫= arg_topic) in
  let idx := index_or_zero (args ≫= arg_articleIndex) in
  net (news_request env topic) = net' (news_request env topic) ->
  stops_after_news net env topic idx ->
  handleGenerateNewsMeme srv net env args = handleGenerateNewsMeme srv net' env args.
Proof.
  intros topic idx Hsame Hstop.
  assert (workflow srv net env topic idx = workflow srv net' env topic idx) as Hw.
  { unfold workflow. unfold stops_after_news in Hstop.
    rewrite <- (getIndianNewsByTopic_one_request net net' env topic Hsame).
    destruct (getIndianNewsByTopic net env topic) as [news|]; cbn [bind]; [| done].
    destruct Hstop as [-> | Hinc]; [done |].
    destruct (Nat.eqb (length news) 0); [done |]. by rewrite Hinc. }
  destruct srv; cbn [handleGenerateNewsMeme];
    unfold IndexTs.handleGenerateNewsMeme, AppTs.handleGenerateNewsMeme;
    fold topic idx; by rewrite Hw.
Qed.

(** A network that answers the news query with an empty list and fails
    every other request, against one that answers every request. *)
Definition news_only (req : Request) : fetch_outcome :=
  if decide (req_url req = js "https://newsdata.io/api/1/latest")
  then respond (jsq "{'results': []}")
  else Rejected NonError.

Lemma no_request_after_the_news_step_fails_witness :
  handleGenerateNewsMeme index_ts news_only sample_env None
  = handleGenerateNewsMeme index_ts (fun _ => respond (jsq "{'results': []}"))
      sample_env None.
Proof.
  refine (no_request_after_the_news_step_fails index_ts news_only
            (fun _ => respond (jsq "{'results': []}")) sample_env None _ _).
  - reflexivity.
  - unfold stops_after_news.
    assert (getIndianNewsByTopic news_only sample_env
              (topic_or_empty (None ≫= arg_topic)) = Normal []) as ->
      by (vm_compute; reflexivity).
    by left.
Defined.

(* ===================================================================== *)
(** * Further properties of the caption parser *)
(* ===================================================================== *)

(** ** When a caption is produced *)

(** X18.  A caption returned by [parseMemeCaption] comes from a text that,
    once cleaned, is JSON with truthy [image], [topText] and [bottomText];
    its image is [Number(json.image)] and is never [NaN], its texts are
    [String(json.topText)] and [String(json.bottomText)]. *)
Theorem parseMemeCaption_caption_origin (s : jsstring) (c : MemeCaption) :
  parseMemeCaption (VStr s) = Normal (Some c) ->
  is_NaN (image c) = false
  /\ exists json,
       JSON_parse (cleaned s) = Normal json
       /\ ToBoolean (get_prop_opt json (js "image")) = true
       /\ ToBoolean (get_prop_opt json (js "topText")) = true
       /\ ToBoolean (get_prop_opt json (js "bottomText")) = true
       /\ ToNumber (get_prop_opt json (js "image")) = Normal (image c)
       /\ ToString (get_prop_opt json (js "topText")) = Normal (topText c)
       /\ ToString (get_prop_opt json (js "bottomText")) = Normal (bottomText c).
Proof.
  rewrite parseMemeCaption_string.
  destruct (JSON_parse (cleaned s)) as [json|] eqn:Hjson; cbn [bind try_catch]; [| done].
  destruct (get_prop_cases json) as [-> | [-> | Hget]]; [done.. |].
  unfold caption_of_json, falsy. rewrite !Hget. cbn [bind].
  destruct (ToBoolean (get_prop_opt json (js "image"))) eqn:Hi; cbn [negb]; [| done].
  destruct (ToBoolean (get_prop_opt json (js "topText"))) eqn:Ht; cbn [negb]; [| done].
  destruct (ToBoolean (get_prop_opt json (js "bottomText"))) eqn:Hb; cbn [negb]; [| done].
  destruct (ToNumber (get_prop_opt json (js "image"))) as [n|] eqn:Hn; cbn [bind];
    [| done].
  destruct (is_NaN n) eqn:Hnan; [done |].
  destruct (ToString (get_prop_opt json (js "topText"))) as [t|] eqn:Hts; cbn [bind];
    [| done].
  destruct (ToString (get_prop_opt json (js "bottomText"))) as [b|] eqn:Hbs; cbn [bind];
    [| done].
  cbn [try_catch]. intros [= <-]. cbn [image topText bottomText].
  split; [done |]. by exists json.
Qed.

Lemma parseMemeCaption_caption_origin_witness :
  is_NaN (image sample_caption) = false.
Proof.
  refine (proj1 (parseMemeCaption_caption_origin sample_object sample_caption _)).
  vm_compute. reflexivity.
Defined.

Lemma present_field_object (v : value) (key : jsstring) :
  get_prop_opt v key <> VUndefined ->
  forall k, get_prop v k = Normal (get_prop_opt v k).
Proof. by destruct v. Qed.

(** X19.  A text that cleans to a JSON object with a number other than zero
    as [image] and non-empty strings as [topText] and [bottomText] gives the
    caption made of these three, whatever other members the object has and
    in whatever order they come. *)
Theorem parseMemeCaption_reads_the_three_fields
    (s : jsstring) (json : value) (n : number) (top bottom : jsstring) :
  JSON_parse (cleaned s) = Normal json ->
  get_prop_opt json (js "image") = VNum n -> is_zero n = false -> is_NaN n = false ->
  get_prop_opt json (js "topText") = VStr top -> top <> [] ->
  get_prop_opt json (js "bottomText") = VStr bottom -> bottom <> [] ->
  parseMemeCaption (VStr s)
  = Normal (Some {| image := n; topText := top; bottomText := bottom |}).
Proof.
  intros Hjson Hi Hz Hnan Ht Htop Hb Hbottom.
  rewrite parseMemeCaption_string, Hjson. cbn [bind].
  assert (forall key, get_prop json key = Normal (get_prop_opt json key)) as Hget.
  { apply (present_field_object json (js "image")). by rewrite Hi. }
  unfold caption_of_json, falsy. rewrite !Hget, Hi, Ht, Hb. cbn [bind ToBoolean].
  rewrite Hz, Hnan. cbn [orb negb ToNumber bind].
  destruct top; [done |]. destruct bottom; [done |]. cbn [negb]. by rewrite Hnan.
Qed.

Lemma parseMemeCaption_reads_the_three_fields_witness :
  parseMemeCaption
    (VStr (jsq "```{'why': 'it fits', 'bottomText': 'B', 'image': 61579, 'topText': 'A'}```"))
  = Normal (Some {| image := number_of_N 61579; topText := js "A"; bottomText := js "B" |}).
Proof.
  refine (parseMemeCaption_reads_the_three_fields
            (jsq "```{'why': 'it fits', 'bottomText': 'B', 'image': 61579, 'topText': 'A'}```")
            _ (number_of_N 61579) (js "A") (js "B") _ _ _ _ _ _ _ _).
  - vm_compute. reflexivity.
  - vm_compute. reflexivity.
  - reflexivity.
  - reflexivity.
  - vm_compute. reflexivity.
  - discriminate.
  - vm_compute. reflexivity.
  - discriminate.
Defined.

(** ** What cleaning leaves *)

Lemma remove_fence_other (x : N) (r : jsstring) :
  x <> c_backtick -> remove_all fence (x :: r) = x :: remove_all fence r.
Proof.
  intros Hx. apply (remove_fence_copy [x] r). cbn.
  by destruct (N.eqb_spec x c_backtick).
Qed.

Lemma remove_fence_three (r : jsstring) :
  remove_all fence (c_backtick :: c_backtick :: c_backtick :: r) = remove_all fence r.
Proof. apply (remove_fence_drop r). Qed.

(** Unfolding the scan over a few characters, one of which is known not to
    be a backtick. *)
Ltac scan_fence H :=
  apply N.eqb_neq in H; rewrite N.eqb_sym in H; change c_backtick with 96%N in *;
  unfold remove_all; rewrite ?fence_code;
  cbn -[N.eqb]; rewrite ?N.eqb_refl, ?H;
  cbn -[N.eqb]; rewrite ?N.eqb_refl, ?H;
  cbn -[N.eqb]; rewrite ?N.eqb_refl, ?H;
  reflexivity.

Lemma remove_fence_one (x : N) (r : jsstring) :
  x <> c_backtick ->
  remove_all fence (c_backtick :: x :: r) = c_backtick :: x :: remove_all fence r.
Proof. intros Hx. scan_fence Hx. Qed.

Lemma remove_fence_two (y : N) (r : jsstring) :
  y <> c_backtick ->
  remove_all fence (c_backtick :: c_backtick :: y :: r)
  = c_backtick :: c_backtick :: y :: remove_all fence r.
Proof. intros Hy. scan_fence Hy. Qed.

Lemma containsb_fence_other (x : N) (o : jsstring) :
  x <> c_backtick -> containsb (x :: o) fence = containsb o fence.
Proof. intros Hx. cbn [containsb]. scan_fence Hx. Qed.

Lemma containsb_fence_one (x : N) (o : jsstring) :
  x <> c_backtick -> containsb (c_backtick :: x :: o) fence = containsb o fence.
Proof. intros Hx. cbn [containsb]. scan_fence Hx. Qed.

Lemma containsb_fence_two (y : N) (o : jsstring) :
  y <> c_backtick ->
  containsb (c_backtick :: c_backtick :: y :: o) fence = containsb o fence.
Proof. intros Hy. cbn [containsb]. scan_fence Hy. Qed.

(** One pass of the second replacement leaves no fence behind. *)
Lemma remove_fence_thorough (n : nat) : forall s,
  (length s <= n)%nat -> containsb (remove_all fence s) fence = false.
Proof.
  induction n as [|n IH]; intros s Hn.
  { destruct s; [reflexivity | cbn in Hn; lia]. }
  destruct s as [|c s]; [reflexivity |]. cbn [length] in Hn.
  destruct (decide (c = c_backtick)) as [-> | Hc].
  2: { rewrite remove_fence_other, containsb_fence_other by done. apply IH. lia. }
  destruct s as [|x s]; [reflexivity |]. cbn [length] in Hn.
  destruct (decide (x = c_backtick)) as [-> | Hx].
  2: { rewrite remove_fence_one, containsb_fence_one by done. apply IH. lia. }
  destruct s as [|y s]; [reflexivity |]. cbn [length] in Hn.
  destruct (decide (y = c_backtick)) as [-> | Hy].
  - rewrite remove_fence_three. apply IH. lia.
  - rewrite remove_fence_two, containsb_fence_two by done. apply IH. lia.
Qed.

(** A text with its white space before and after. *)
Lemma trimStart_split (s : jsstring) :
  exists w, blank w = true /\ s = w ++ trimStart s.
Proof.
  induction s as [|c s (w & Hw & IH)]; [by exists [] |]. cbn [trimStart].
  destruct (is_js_space c) eqn:Hc; [| by exists []].
  exists (c :: w). split; [cbn; by rewrite Hc | by rewrite IH at 1].
Qed.

Lemma trim_split (s : jsstring) :
  exists w1 w2, blank w1 = true /\ blank w2 = true /\ s = w1 ++ trim s ++ w2.
Proof.
  destruct (trimStart_split s) as (w1 & H1 & Hs).
  destruct (trimStart_split (rev (trimStart s))) as (w2 & H2 & Hr).
  exists w1, (rev w2). split; [done |]. split; [by rewrite blank_rev |].
  rewrite Hs at 1. f_equal. unfold trim, trimEnd.
  apply (f_equal (@rev N)) in Hr. rewrite rev_involutive, rev_app_distr in Hr.
  exact Hr.
Qed.

Lemma trimStart_idempotent (s : jsstring) : trimStart (trimStart s) = trimStart s.
Proof.
  destruct (trimStart_head s) as [-> | (c & t & -> & Hc)]; [done |].
  cbn. by rewrite Hc.
Qed.

Lemma trim_ends (s : jsstring) :
  trimStart (trim s) = trim s /\ trimStart (rev (trim s)) = rev (trim s).
Proof.
  split.
  - unfold trim, trimEnd.
    destruct (trimStart_split (rev (trimStart s))) as (w & Hw & Hr).
    apply (f_equal (@rev N)) in Hr. rewrite rev_involutive, rev_app_distr in Hr.
    destruct (rev (trimStart (rev (trimStart s)))) as [|c t]; [done |].
    destruct (trimStart_head s) as [Ha | (c' & t' & Ha & Hc)]; rewrite Ha in Hr;
      [discriminate |].
    injection Hr as -> _. cbn. by rewrite Hc.
  - unfold trim, trimEnd. rewrite rev_involutive. apply trimStart_idempotent.
Qed.

Lemma trim_idempotent (s : jsstring) : trim (trim s) = trim s.
Proof.
  destruct (trim_ends s) as [Hs He].
  rewrite <- (app_nil_r (trim s)) at 1. by apply (trim_padded [] (trim s) []).
Qed.

Lemma contains_trim (s x : jsstring) : contains (trim s) x -> contains s x.
Proof.
  intros H. destruct (trim_split s) as (w1 & w2 & _ & _ & ->).
  by apply contains_prefixed, contains_suffixed.
Qed.

(** A text without an occurrence of the pattern is left as it is. *)
Lemma remove_all_absent (pat s : jsstring) :
  containsb s pat = false -> remove_all pat s = s.
Proof.
  unfold remove_all. induction s as [|c s IH]; [done |].
  cbn [containsb remove_all_from]. intros [Hhead Htail]%orb_false_iff.
  rewrite Hhead. f_equal. by apply IH.
Qed.

Lemma fence_free_json_free (s : jsstring) :
  containsb s fence = false -> containsb s fence_json = false.
Proof.
  intros Hfree. destruct (containsb s fence_json) eqn:Hjson; [| done].
  apply containsb_contains in Hjson. destruct Hjson as (pre & post & ->).
  assert (contains (pre ++ fence_json ++ post) fence) as Hc.
  { exists pre, (js "json" ++ post). reflexivity. }
  apply containsb_contains in Hc. congruence.
Qed.

Lemma cleaned_fence_free (s : jsstring) : containsb (cleaned s) fence = false.
Proof.
  unfold cleaned. set (u := remove_all fence (remove_all fence_json s)).
  assert (containsb u fence = false) as Hu
    by (apply (remove_fence_thorough (length (remove_all fence_json s))); lia).
  destruct (containsb (trim u) fence) eqn:Ht; [| done].
  apply containsb_contains, contains_trim, containsb_contains in Ht. congruence.
Qed.

(** X20.  The text handed to [JSON.parse] contains no code fence, and has no
    white space at its ends. *)
Theorem cleaned_text_has_no_fence (s : jsstring) :
  ~ contains (cleaned s) fence
  /\ ~ contains (cleaned s) fence_json
  /\ trim (cleaned s) = cleaned s.
Proof.
  pose proof (cleaned_fence_free s) as Hfree.
  split; [| split].
  - intros H. apply containsb_contains in H. congruence.
  - intros H. apply containsb_contains in H.
    rewrite (fence_free_json_free _ Hfree) in H. discriminate.
  - apply trim_idempotent.
Qed.

(** X21.  Cleaning a cleaned text changes nothing, so [parseMemeCaption]
    gives the same result on a text and on its cleaned form. *)
Theorem cleaning_is_idempotent (s : jsstring) :
  cleaned (cleaned s) = cleaned s
  /\ parseMemeCaption (VStr (cleaned s)) = parseMemeCaption (VStr s).
Proof.
  assert (cleaned (cleaned s) = cleaned s) as Hidem.
  { pose proof (cleaned_fence_free s) as Hfree.
    unfold cleaned at 1.
    rewrite (remove_all_absent fence_json) by (by apply fence_free_json_free).
    rewrite (remove_all_absent fence) by done.
    apply trim_idempotent. }
  split; [done |]. by rewrite !parseMemeCaption_string, Hidem.
Qed.

(* ===================================================================== *)
(** * Further properties of the news client *)
(* ===================================================================== *)

Lemma getIndianNewsByTopic_results_witness :
  exists items,
    getIndianNewsByTopic sample_net sample_env (js "cricket") = Normal items
    /\ length items = 3%nat.
Proof.
  eexists. split.
  - eapply (getIndianNewsByTopic_results sample_net sample_env (js "cricket")).
    + vm_compute. reflexivity.
    + reflexivity.
    + vm_compute. reflexivity.
    + vm_compute. reflexivity.
  - vm_compute. reflexivity.
Defined.

(** An upstream answer that reports an error in a body of its own. *)
Definition upstream_error : Response :=
  {| status := 200; statusText := js "OK";
     body := jsq "{'status': 'error', 'results': {'message': 'Rate limit exceeded', 'code': 'RateLimitExceeded'}}" |}.

Lemma getIndianNewsByTopic_malformed_witness :
  getIndianNewsByTopic (fun _ => Resolved upstream_error) sample_env (js "cricket")
  = Normal [].
Proof.
  eapply (getIndianNewsByTopic_malformed _ sample_env (js "cricket") upstream_error).
  - reflexivity.
  - reflexivity.
  - vm_compute. reflexivity.
  - discriminate.
  - discriminate.
  - vm_compute. reflexivity.
Defined.

(** ** The clients' errors on sample answers *)

Lemma client_failures_carry_their_prefix_witness :
  exists m,
    ErrorObj (js "Failed to fetch news: NewsData API error: 503 Service Unavailable")
    = ErrorObj (news_failure ++ m).
Proof.
  refine (proj1 client_failures_carry_their_prefix
            (fun _ => Resolved server_error) sample_env (js "cricket") _ _).
  vm_compute. reflexivity.
Defined.

Lemma clients_report_a_rejected_fetch_witness :
  getIndianNewsByTopic (fun _ => Rejected NonError) sample_env (js "cricket")
  = Throw (ErrorObj (js "Failed to fetch news: Unknown error")).
Proof.
  refine (proj1 (clients_report_a_rejected_fetch NonError)
            (fun _ => Rejected NonError) sample_env (js "cricket") _).
  reflexivity.
Defined.

(** ** The news query on sample topics *)

(** C6 as stated fails: a topic with a surrogate on its own is not blank,
    and the query carries it with U+FFFD in the place of the surrogate. *)
Lemma news_query_lone_surrogate_counterexample :
  blank [97; 55296; 98]%N = false
  /\ param_values (js "q") (req_query (news_request sample_env [97; 55296; 98]%N))
     = [[97; 65533; 98]%N]
  /\ ~ (forall (env : environment) (topic : jsstring),
          blank topic = false ->
          param_values (js "q") (req_query (news_request env topic)) = [topic]).
Proof.
  split; [reflexivity |]. split; [vm_compute; reflexivity |].
  intros H. specialize (H sample_env [97; 55296; 98]%N eq_refl).
  vm_compute in H. discriminate.
Qed.

Lemma news_query_topic_filter_witness :
  param_values (js "q") (req_query (news_request sample_env (js "cricket")))
  = [js "cricket"].
Proof.
  refine (proj2 (proj2 (proj2 (news_query_topic_filter sample_env (js "cricket")))) _ _).
  - reflexivity.
  - vm_compute.
    repeat first [ apply well_formed_nil
                 | apply well_formed_unit; [left; reflexivity |] ].
Defined.
